(** * Label-only membership inference notebook

    A shallow embedding of [notebooks/label_only_membership_inference.ipynb].
    The notebook is a linear sequence of code cells; every cell is a list of
    Python statements; every statement evaluates a right-hand side made of
    calls into external libraries (ART, PyTorch, NumPy, scikit-learn) and then
    binds notebook variables.

    - NumPy arrays are modelled as a shape together with row-major data
      (module [Np]); the array operations the notebook uses are written out.
    - The external libraries are an interface ([Library]): every call takes
      the hidden state of the outside world and may raise.
    - Python exceptions are an explicit [result]; an exception raised inside
      a library is kept apart from one raised by the notebook's own array
      code; the namespace of the kernel is a dynamically typed environment. *)

From Stdlib Require Import QArith String.
From Stdlib Require Import ZArith Arith Bool Lia List.
Import ListNotations.
Close Scope Q_scope.
Open Scope nat_scope.

Set Implicit Arguments.

(** ** Exceptions and results *)

Inductive exn : Type :=
| NameError
| TypeError
| ValueError
| IndexError
| AxisError
| LibraryError (code : nat).

Inductive result (A : Type) : Type :=
| Ok (a : A)
| Raise (e : exn).

Arguments Ok {A} a.
Arguments Raise {A} e.

Definition rbind {A B} (r : result A) (k : A -> result B) : result B :=
  match r with
  | Ok a => k a
  | Raise e => Raise e
  end.

Fixpoint rmap {A B} (f : A -> result B) (l : list A) : result (list B) :=
  match l with
  | [] => Ok []
  | a :: l' =>
      rbind (f a) (fun b => rbind (rmap f l') (fun bs => Ok (b :: bs)))
  end.

(** What a call into an external library gives back: a value, or an
    exception raised inside the library, of which the notebook sees only that
    it came from there. *)
Inductive outcome (A : Type) : Type :=
| Returned (a : A)
| Failed (code : nat).

Arguments Returned {A} a.
Arguments Failed {A} code.

Definition from_lib {A} (r : outcome A) : result A :=
  match r with
  | Returned a => Ok a
  | Failed c => Raise (LibraryError c)
  end.

(** ** NumPy arrays

    An array is its shape and its elements in row-major order.  The
    operations are those the notebook applies to arrays, with the exceptions
    NumPy raises on them. *)

Module Np.

Record ndarray (A : Type) : Type := NdArray {
  shape : list nat;
  data : list A
}.

Arguments NdArray {A} shape data.

Section Ops.
Context {A : Type}.

(** [np.prod] of a shape: the number of elements. *)
Definition size_of (sh : list nat) : nat := fold_right Nat.mul 1 sh.

Definition ndim (a : ndarray A) : nat := length (shape a).

(** The storage invariant of every array NumPy hands out. *)
Definition wf (a : ndarray A) : Prop :=
  length (data a) = size_of (shape a).

(** [len(a)]: the first dimension; a 0-d array has no [len]. *)
Definition len (a : ndarray A) : result nat :=
  match shape a with
  | [] => Raise TypeError
  | n :: _ => Ok n
  end.

(** [np.array(l)] on a Python list of scalars. *)
Definition array (l : list A) : ndarray A := NdArray [length l] l.

(** [np.expand_dims(a, axis)]: a new axis of length one; the data buffer is
    shared, only the shape changes. *)
Definition expand_dims (a : ndarray A) (axis : nat) : result (ndarray A) :=
  if axis <=? ndim a
  then Ok (NdArray (firstn axis (shape a) ++ 1 :: skipn axis (shape a)) (data a))
  else Raise AxisError.

(** Row-major offset of a multi-index, [None] out of bounds. *)
Fixpoint ravel (sh idx : list nat) : option nat :=
  match sh, idx with
  | [], [] => Some 0
  | n :: sh', i :: idx' =>
      if i <? n
      then option_map (fun o => i * size_of sh' + o) (ravel sh' idx')
      else None
  | _, _ => None
  end.

(** [a[i, j, ...]] with a full multi-index. *)
Definition item (a : ndarray A) (idx : list nat) : option A :=
  match ravel (shape a) idx with
  | Some o => nth_error (data a) o
  | None => None
  end.

Definition row_size (a : ndarray A) : nat := size_of (tl (shape a)).

(** The data of [a[i]], the [i]-th entry along the first axis. *)
Definition row (a : ndarray A) (i : nat) : list A :=
  firstn (row_size a) (skipn (i * row_size a) (data a)).

Definition same_tail (t : list nat) (b : ndarray A) : bool :=
  match shape b with
  | [] => false
  | _ :: tb => if list_eq_dec Nat.eq_dec t tb then true else false
  end.

(** [np.concatenate(arrs)] along axis 0. *)
Definition concatenate (arrs : list (ndarray A)) : result (ndarray A) :=
  match arrs with
  | [] => Raise ValueError
  | a :: rest =>
      match shape a with
      | [] => Raise ValueError
      | _ :: t =>
          if forallb (same_tail t) rest
          then Ok (NdArray
                     (fold_right (fun b acc => hd 0 (shape b) + acc) 0 arrs :: t)
                     (concat (map (@data A) arrs)))
          else Raise ValueError
      end
  end.

(** [a[:k]] for a non-negative [k]. *)
Definition slice_to (a : ndarray A) (k : nat) : result (ndarray A) :=
  match shape a with
  | [] => Raise IndexError
  | n :: t =>
      Ok (NdArray (Nat.min k n :: t)
                  (firstn (Nat.min k n * size_of t) (data a)))
  end.

(** An index into an axis of length [n]: negative indices count from the
    end, anything outside [-n, n) is an [IndexError]. *)
Definition norm_index (n : nat) (i : Z) : result nat :=
  if (0 <=? i)%Z
  then (if (i <? Z.of_nat n)%Z then Ok (Z.to_nat i) else Raise IndexError)
  else (if (- Z.of_nat n <=? i)%Z
        then Ok (Z.to_nat (i + Z.of_nat n))
        else Raise IndexError).

(** [a[idx]] with an integer index array. *)
Definition take (a : ndarray A) (idx : ndarray Z) : result (ndarray A) :=
  match shape a with
  | [] => Raise IndexError
  | n :: t =>
      rbind (rmap (norm_index n) (data idx))
            (fun ks => Ok (NdArray (shape idx ++ t) (flat_map (row a) ks)))
  end.

(** [for r in a]: the entries along the first axis. *)
Definition iter (a : ndarray A) : result (list (ndarray A)) :=
  match shape a with
  | [] => Raise TypeError
  | n :: t => Ok (map (fun i => NdArray t (row a i)) (seq 0 n))
  end.

End Ops.

(** [a.astype(dtype)], the conversion of one element being [f]. *)
Definition astype {A B} (f : A -> B) (a : ndarray A) : ndarray B :=
  NdArray (shape a) (map f (data a)).

End Np.

Import Np.

(** ** The external libraries

    Everything the notebook calls and does not define.  A call that touches
    files, the random generator, the model or an attack object takes the
    hidden state [World] and gives the next one; a call may raise. *)

Inductive scalar : Type :=
| SInt (z : Z)
| SBool (b : bool).

Class Library : Type := {
  World : Type;
  float32 : Type;
  float64 : Type;
  StateDict : Type;
  Model : Type;
  Loss : Type;
  Params : Type;
  Optimizer : Type;
  Classifier : Type;
  Attack : Type;
  (* numpy: the conversion of one integer to [np.float32];
     [np.argmax(a)]; [np.sum(a == b)]; [numpy.random.choice(a, size)] *)
  np_float32 : Z -> float32;
  np_argmax : ndarray float32 -> outcome Z;
  np_sum_equal : ndarray Z -> ndarray Z -> outcome nat;
  choice : nat -> nat -> World -> outcome (ndarray Z) * World;
  (* the import system *)
  import_module : string -> list string -> World -> outcome unit * World;
  (* art.utils *)
  load_mnist :
    bool -> World ->
    outcome ((ndarray Z * ndarray Z) * (ndarray Z * ndarray Z) * float64 * float64)
    * World;
  (* torch and models.mnist *)
  torch_load : string -> World -> outcome StateDict * World;
  Net : World -> outcome Model * World;
  load_state_dict : Model -> StateDict -> World -> outcome unit * World;
  CrossEntropyLoss : World -> outcome Loss * World;
  parameters : Model -> World -> outcome Params * World;
  Adam : Params -> World -> outcome Optimizer * World;
  (* art.estimators.classification.pytorch *)
  PyTorchClassifier :
    Model -> Loss -> Optimizer -> bool -> list nat -> nat ->
    float64 * float64 -> World -> outcome Classifier * World;
  predict :
    Classifier -> ndarray float32 -> World -> outcome (ndarray float32) * World;
  (* art.attacks.inference.membership_inference *)
  LabelOnlyDecisionBoundary : Classifier -> World -> outcome Attack * World;
  calibrate_distance_threshold :
    Attack -> ndarray float32 -> ndarray Z -> ndarray float32 -> ndarray Z ->
    World -> outcome unit * World;
  calibrate_distance_threshold_unsupervised :
    Attack -> list (string * scalar) -> World -> outcome unit * World;
  infer :
    Attack -> ndarray float32 -> ndarray Z -> World ->
    outcome (ndarray Z) * World;
  (* sklearn.metrics: the score as the rational number the returned float
     stands for *)
  accuracy_score : ndarray Z -> ndarray Z -> World -> outcome Q * World
}.

(** ** The notebook's namespace *)

Module V.

Inductive var : Type :=
| x_train | y_train | x_test | y_test | _min | _max
| state_dict | model
| criterion | optimizer | art_model | pred
| mia_label_only
| attack_train_size | attack_test_size | x | y | training_sample
| n | eval_data_idx | x_eval | y_eval | eval_label
| pred_label
| mia_label_only_unsupervised
| pred_label_unsupervised.

Definition eqb (a b : var) : bool :=
  match a, b with
  | x_train, x_train | y_train, y_train | x_test, x_test | y_test, y_test
  | _min, _min | _max, _max | state_dict, state_dict | model, model
  | criterion, criterion | optimizer, optimizer | art_model, art_model
  | pred, pred | mia_label_only, mia_label_only
  | attack_train_size, attack_train_size
  | attack_test_size, attack_test_size | x, x | y, y
  | training_sample, training_sample | n, n
  | eval_data_idx, eval_data_idx | x_eval, x_eval | y_eval, y_eval
  | eval_label, eval_label | pred_label, pred_label
  | mia_label_only_unsupervised, mia_label_only_unsupervised
  | pred_label_unsupervised, pred_label_unsupervised => true
  | _, _ => false
  end.

End V.

Section Notebook.
Context {L : Library}.

Inductive value : Type :=
| VIntArr (a : ndarray Z)
| VFloatArr (a : ndarray float32)
| VInt (k : nat)
| VFloat (f : float64)
| VStateDict (s : StateDict)
| VModel (m : Model)
| VLoss (l : Loss)
| VOptimizer (o : Optimizer)
| VClassifier (c : Classifier)
| VAttack (a : Attack).

Definition env : Type := V.var -> option value.

Definition empty_env : env := fun _ => None.

Definition bind_var (v : V.var) (a : value) (e : env) : env :=
  fun w => if V.eqb v w then Some a else e w.

Fixpoint bind_vars (vs : list V.var) (xs : list value) (e : env) : env :=
  match vs, xs with
  | v :: vs', a :: xs' => bind_vars vs' xs' (bind_var v a e)
  | _, _ => e
  end.

(** ** What a run leaves behind outside the namespace *)

(** A line written by [print]: the base model accuracy, as the two numbers
    of the ratio, or a membership inference accuracy. *)
Inductive printed : Type :=
| PBaseAccuracy (correct total : nat)
| PAccuracy (q : Q).

Inductive event : Type :=
| EImport (module : string) (names : list string)
| ELoadMnist (raw : bool)
| ETorchLoad (path : string)
| ENet
| ELoadStateDict (m : Model) (s : StateDict)
| ECrossEntropyLoss
| EParameters (m : Model)
| EAdam (p : Params)
| EPyTorchClassifier (m : Model) (l : Loss) (o : Optimizer)
    (channels_first : bool) (input_shape : list nat) (nb_classes : nat)
    (clip_values : float64 * float64)
| EPredict (c : Classifier) (xs : ndarray float32)
| ELabelOnlyDecisionBoundary (c : Classifier)
| ECalibrate (recv : V.var) (a : Attack)
    (xm : ndarray float32) (ym : ndarray Z)
    (xn : ndarray float32) (yn : ndarray Z)
| ECalibrateUnsupervised (recv : V.var) (a : Attack)
    (kwargs : list (string * scalar))
| EChoice (a size : nat)
| EInfer (recv : V.var) (a : Attack) (xs : ndarray float32) (ys : ndarray Z)
| EAccuracyScore (y_true y_pred : ndarray Z)
| EPrint (p : printed).

(** Besides the hidden state of the libraries: the calls made, in order,
    [print] among them; the calls that raised, with the code of what they
    raised; what was printed. *)
Record outside : Type := Outside {
  world : World;
  trace : list event;
  raised : list (event * nat);
  stdout : list printed
}.

Record state : Type := State {
  names : env;
  out : outside
}.

(** ** Evaluation of right-hand sides

    An expression reads the namespace, calls out, and gives a value or
    raises; it binds nothing. *)

Definition Eval (A : Type) : Type := env -> outside -> result A * outside.

Definition ret {A} (a : A) : Eval A := fun _ o => (Ok a, o).

Definition raise {A} (e : exn) : Eval A := fun _ o => (Raise e, o).

Definition bind {A B} (m : Eval A) (k : A -> Eval B) : Eval B :=
  fun e o =>
    match m e o with
    | (Ok a, o') => k a e o'
    | (Raise x, o') => (Raise x, o')
    end.

Definition lift {A} (r : result A) : Eval A := fun _ o => (r, o).

(** A call into a library: logged when it is made, whatever it returns. *)
Definition call {A} (ev : event) (op : World -> outcome A * World) : Eval A :=
  fun _ o =>
    let (r, w) := op (world o) in
    (from_lib r,
     Outside w (trace o ++ [ev])
       (match r with
        | Returned _ => raised o
        | Failed c => raised o ++ [(ev, c)]
        end)
       (stdout o)).

(** A library function that touches nothing outside its arguments. *)
Definition lift_lib {A} (r : outcome A) : Eval A := lift (from_lib r).

(** [print] writes a line; the call is logged like any other. *)
Definition print (p : printed) : Eval unit :=
  fun _ o =>
    (Ok tt,
     Outside (world o) (trace o ++ [EPrint p]) (raised o) (stdout o ++ [p])).

Definition lookup (v : V.var) : Eval value :=
  fun e o =>
    match e v with
    | Some a => (Ok a, o)
    | None => (Raise NameError, o)
    end.

End Notebook.

Declare Scope eval_scope.
Delimit Scope eval_scope with eval.
Notation "a <- m ;; k" := (bind m (fun a => k))
  (at level 61, m at next level, right associativity) : eval_scope.
Notation "m ;;; k" := (bind m (fun _ => k))
  (at level 61, right associativity) : eval_scope.
Notation "' p <- m ;; k" := (bind m (fun p => k))
  (at level 61, p pattern, m at next level, right associativity) : eval_scope.

Section Program.
Context {L : Library}.
Local Open Scope eval_scope.
Local Open Scope string_scope.

(** Reading a name at the type its use needs. *)

Definition get_int_arr (v : V.var) : Eval (ndarray Z) :=
  a <- lookup v ;;
  match a with VIntArr r => ret r | _ => raise TypeError end.

Definition get_float_arr (v : V.var) : Eval (ndarray float32) :=
  a <- lookup v ;;
  match a with VFloatArr r => ret r | _ => raise TypeError end.

Definition get_int (v : V.var) : Eval nat :=
  a <- lookup v ;;
  match a with VInt k => ret k | _ => raise TypeError end.

Definition get_float (v : V.var) : Eval float64 :=
  a <- lookup v ;;
  match a with VFloat f => ret f | _ => raise TypeError end.

Definition get_state_dict (v : V.var) : Eval StateDict :=
  a <- lookup v ;;
  match a with VStateDict s => ret s | _ => raise TypeError end.

Definition get_model (v : V.var) : Eval Model :=
  a <- lookup v ;;
  match a with VModel m => ret m | _ => raise TypeError end.

Definition get_loss (v : V.var) : Eval Loss :=
  a <- lookup v ;;
  match a with VLoss l => ret l | _ => raise TypeError end.

Definition get_optimizer (v : V.var) : Eval Optimizer :=
  a <- lookup v ;;
  match a with VOptimizer o => ret o | _ => raise TypeError end.

Definition get_classifier (v : V.var) : Eval Classifier :=
  a <- lookup v ;;
  match a with VClassifier c => ret c | _ => raise TypeError end.

Definition get_attack (v : V.var) : Eval Attack :=
  a <- lookup v ;;
  match a with VAttack t => ret t | _ => raise TypeError end.

(** ** Statements and cells *)

Inductive stmt : Type :=
| Assign (targets : list V.var) (rhs : Eval (list value))
| Expr (rhs : Eval unit).

(** An assignment evaluates its right-hand side, unpacks, and only then
    binds; a statement that raises binds nothing. *)
Definition exec (s : stmt) (st : state) : result unit * state :=
  match s with
  | Assign ts rhs =>
      match rhs (names st) (out st) with
      | (Ok vs, o) =>
          if Nat.eqb (length ts) (length vs)
          then (Ok tt, State (bind_vars ts vs (names st)) o)
          else (Raise ValueError, State (names st) o)
      | (Raise e, o) => (Raise e, State (names st) o)
      end
  | Expr rhs =>
      let (r, o) := rhs (names st) (out st) in (r, State (names st) o)
  end.

(** Statements run in order; the first exception ends the run. *)
Fixpoint exec_all (ss : list stmt) (st : state) : result unit * state :=
  match ss with
  | [] => (Ok tt, st)
  | s :: ss' =>
      match exec s st with
      | (Ok _, st') => exec_all ss' st'
      | (Raise e, st') => (Raise e, st')
      end
  end.

Definition cell : Type := list stmt.

Fixpoint run_cells (cs : list cell) (st : state) : result unit * state :=
  match cs with
  | [] => (Ok tt, st)
  | c :: cs' =>
      match exec_all c st with
      | (Ok _, st') => run_cells cs' st'
      | (Raise e, st') => (Raise e, st')
      end
  end.

Definition import_ (module : string) (names : list string) : stmt :=
  Expr (call (EImport module names) (import_module module names)).

(** [np.expand_dims(a, axis=1).astype(np.float32)] *)
Definition reshape_images (a : ndarray Z) : result (ndarray float32) :=
  rbind (expand_dims a 1) (fun r => Ok (astype np_float32 r)).

(** [input_shape=(1,28,28,)] *)
Definition input_shape : list nat := [1; 28; 28].

(** [In [2]] *)
Definition cell_2 : cell :=
  [ import_ "torch" [];
    import_ "torch" ["nn"];
    import_ "numpy" [];
    import_ "models.mnist" ["Net"] ].

(** [In [62]] *)
Definition cell_62 : cell :=
  [ import_ "art.utils" ["load_mnist"];
    Assign [V.x_train; V.y_train; V.x_test; V.y_test; V._min; V._max]
      ('(tr, te, lo, hi) <- call (ELoadMnist true) (load_mnist true) ;;
       ret [VIntArr (fst tr); VIntArr (snd tr);
            VIntArr (fst te); VIntArr (snd te); VFloat lo; VFloat hi]);
    Assign [V.x_train]
      (a <- get_int_arr V.x_train ;;
       r <- lift (reshape_images a) ;;
       ret [VFloatArr r]);
    Assign [V.x_test]
      (a <- get_int_arr V.x_test ;;
       r <- lift (reshape_images a) ;;
       ret [VFloatArr r]) ].

(** [In [64]] *)
Definition cell_64 : cell :=
  [ Assign [V.state_dict]
      (s <- call (ETorchLoad "models/mnist_cnn.pt")
                 (torch_load "models/mnist_cnn.pt") ;;
       ret [VStateDict s]);
    Assign [V.model] (m <- call ENet Net ;; ret [VModel m]);
    Expr (m <- get_model V.model ;;
          s <- get_state_dict V.state_dict ;;
          call (ELoadStateDict m s) (load_state_dict m s)) ].

(** [In [69]] *)
Definition cell_69 : cell :=
  [ import_ "torch.optim" [];
    import_ "art.estimators.classification.pytorch" ["PyTorchClassifier"];
    Assign [V.criterion]
      (l <- call ECrossEntropyLoss CrossEntropyLoss ;; ret [VLoss l]);
    Assign [V.optimizer]
      (m <- get_model V.model ;;
       p <- call (EParameters m) (parameters m) ;;
       o <- call (EAdam p) (Adam p) ;;
       ret [VOptimizer o]);
    Assign [V.art_model]
      (m <- get_model V.model ;;
       l <- get_loss V.criterion ;;
       o <- get_optimizer V.optimizer ;;
       lo <- get_float V._min ;;
       hi <- get_float V._max ;;
       c <- call (EPyTorchClassifier m l o true input_shape 10 (lo, hi))
                 (PyTorchClassifier m l o true input_shape 10 (lo, hi)) ;;
       ret [VClassifier c]);
    Assign [V.pred]
      (c <- get_classifier V.art_model ;;
       xs <- get_float_arr V.x_test ;;
       p <- call (EPredict c xs) (predict c xs) ;;
       rows <- lift (iter p) ;;
       ks <- lift (rmap (fun r => from_lib (np_argmax r)) rows) ;;
       ret [VIntArr (array ks)]);
    Expr (p <- get_int_arr V.pred ;;
          yt <- get_int_arr V.y_test ;;
          c <- lift_lib (np_sum_equal p yt) ;;
          yt' <- get_int_arr V.y_test ;;
          t <- lift (len yt') ;;
          print (PBaseAccuracy c t)) ].

(** [In [71]] *)
Definition cell_71 : cell :=
  [ import_ "art.attacks.inference.membership_inference"
            ["LabelOnlyDecisionBoundary"];
    Assign [V.mia_label_only]
      (c <- get_classifier V.art_model ;;
       a <- call (ELabelOnlyDecisionBoundary c) (LabelOnlyDecisionBoundary c) ;;
       ret [VAttack a]) ].

(** [In [74]] *)
Definition cell_74 : cell :=
  [ Assign [V.attack_train_size] (ret [VInt 1500]);
    Assign [V.attack_test_size] (ret [VInt 1500]);
    Assign [V.x]
      (a <- get_float_arr V.x_train ;;
       b <- get_float_arr V.x_test ;;
       c <- lift (concatenate [a; b]) ;;
       ret [VFloatArr c]);
    Assign [V.y]
      (a <- get_int_arr V.y_train ;;
       b <- get_int_arr V.y_test ;;
       c <- lift (concatenate [a; b]) ;;
       ret [VIntArr c]);
    Assign [V.training_sample]
      (a <- get_float_arr V.x_train ;;
       k <- lift (len a) ;;
       b <- get_float_arr V.x_test ;;
       m <- lift (len b) ;;
       ret [VIntArr (array (repeat 1%Z k ++ repeat 0%Z m))]) ].

(** [In [75]] *)
Definition cell_75 : cell :=
  [ Expr (a <- get_attack V.mia_label_only ;;
          xt <- get_float_arr V.x_train ;;
          k1 <- get_int V.attack_train_size ;;
          xm <- lift (slice_to xt k1) ;;
          yt <- get_int_arr V.y_train ;;
          k2 <- get_int V.attack_train_size ;;
          ym <- lift (slice_to yt k2) ;;
          xe <- get_float_arr V.x_test ;;
          k3 <- get_int V.attack_test_size ;;
          xn <- lift (slice_to xe k3) ;;
          ye <- get_int_arr V.y_test ;;
          k4 <- get_int V.attack_test_size ;;
          yn <- lift (slice_to ye k4) ;;
          call (ECalibrate V.mia_label_only a xm ym xn yn)
               (calibrate_distance_threshold a xm ym xn yn)) ].

(** [In [76]] *)
Definition cell_76 : cell :=
  [ import_ "numpy.random" ["choice"];
    Assign [V.n] (ret [VInt 500]);
    Assign [V.eval_data_idx]
      (a <- get_float_arr V.x ;;
       k <- lift (len a) ;;
       m <- get_int V.n ;;
       i <- call (EChoice k m) (choice k m) ;;
       ret [VIntArr i]);
    Assign [V.x_eval; V.y_eval]
      (a <- get_float_arr V.x ;;
       i <- get_int_arr V.eval_data_idx ;;
       xe <- lift (take a i) ;;
       b <- get_int_arr V.y ;;
       j <- get_int_arr V.eval_data_idx ;;
       ye <- lift (take b j) ;;
       ret [VFloatArr xe; VIntArr ye]);
    Assign [V.eval_label]
      (t <- get_int_arr V.training_sample ;;
       i <- get_int_arr V.eval_data_idx ;;
       r <- lift (take t i) ;;
       ret [VIntArr r]) ].

(** [In [77]] *)
Definition cell_77 : cell :=
  [ Assign [V.pred_label]
      (a <- get_attack V.mia_label_only ;;
       xe <- get_float_arr V.x_eval ;;
       ye <- get_int_arr V.y_eval ;;
       p <- call (EInfer V.mia_label_only a xe ye) (infer a xe ye) ;;
       ret [VIntArr p]) ].

(** [In [79]] *)
Definition cell_79 : cell :=
  [ import_ "sklearn.metrics" ["accuracy_score"];
    Expr (el <- get_int_arr V.eval_label ;;
          pl <- get_int_arr V.pred_label ;;
          q <- call (EAccuracyScore el pl) (accuracy_score el pl) ;;
          print (PAccuracy q)) ].

(** [In [80]] *)
Definition cell_80 : cell :=
  [ Assign [V.mia_label_only_unsupervised]
      (c <- get_classifier V.art_model ;;
       a <- call (ELabelOnlyDecisionBoundary c) (LabelOnlyDecisionBoundary c) ;;
       ret [VAttack a]) ].

(** The keyword arguments of the unsupervised calibration, as written. *)
Definition unsupervised_kwargs : list (string * scalar) :=
  [ ("top_t", SInt 50); ("num_samples", SInt 500); ("max_queries", SInt 2);
    ("verbose", SBool true); ("batch_size", SInt 256) ].

(** [In [81]] *)
Definition cell_81 : cell :=
  [ Expr (a <- get_attack V.mia_label_only_unsupervised ;;
          call (ECalibrateUnsupervised V.mia_label_only_unsupervised a
                  unsupervised_kwargs)
               (calibrate_distance_threshold_unsupervised a
                  unsupervised_kwargs)) ].

(** [In [82]] *)
Definition cell_82 : cell :=
  [ Assign [V.pred_label_unsupervised]
      (a <- get_attack V.mia_label_only_unsupervised ;;
       xe <- get_float_arr V.x_eval ;;
       ye <- get_int_arr V.y_eval ;;
       p <- call (EInfer V.mia_label_only_unsupervised a xe ye)
                 (infer a xe ye) ;;
       ret [VIntArr p]) ].

(** [In [83]] *)
Definition cell_83 : cell :=
  [ Expr (el <- get_int_arr V.eval_label ;;
          pl <- get_int_arr V.pred_label_unsupervised ;;
          q <- call (EAccuracyScore el pl) (accuracy_score el pl) ;;
          print (PAccuracy q)) ].

(** The code cells, top to bottom. *)
Definition notebook : list cell :=
  [ cell_2; cell_62; cell_64; cell_69; cell_71; cell_74; cell_75;
    cell_76; cell_77; cell_79; cell_80; cell_81; cell_82; cell_83 ].

(** A fresh kernel: nothing bound, nothing called, nothing printed. *)
Definition fresh (w : World) : state :=
  State empty_env (Outside w [] [] []).

(** Restart and run all. *)
Definition run (w : World) : result unit * state :=
  run_cells notebook (fresh w).

End Program.

(** ** Vocabulary of the properties *)

(** The positions at which two label vectors agree. *)
Definition count_equal (a b : list Z) : nat :=
  length (filter (fun p => Z.eqb (fst p) (snd p)) (combine a b)).

(** The fraction of the samples of [y_true] on which [y_pred] agrees. *)
Definition fraction_equal (y_true y_pred : ndarray Z) : Q :=
  Qmake (Z.of_nat (count_equal (data y_true) (data y_pred)))
        (Pos.of_nat (length (data y_true))).

Definition is_bit (z : Z) : Prop := z = 0%Z \/ z = 1%Z.

Definition in_range (k : nat) (i : Z) : Prop := (0 <= i < Z.of_nat k)%Z.

Definition prefix {A} (l1 l2 : list A) : Prop := exists t, l2 = l1 ++ t.

(** Every element satisfying [q] comes after one satisfying [p]. *)
Definition precedes {A} (p q : A -> bool) (l : list A) : Prop :=
  forall i b, nth_error l i = Some b -> q b = true ->
  exists j a, j < i /\ nth_error l j = Some a /\ p a = true.

Fixpoint guarded {A} (p q : A -> bool) (seen : bool) (l : list A) : bool :=
  match l with
  | [] => true
  | a :: l' => (negb (q a) || seen) && guarded p q (seen || p a) l'
  end.

(** Every element satisfying [q] has its own earlier element satisfying
    [p]: at no point of the list have there been more [q] than [p]. *)
Definition paced {A} (p q : A -> bool) (l : list A) : Prop :=
  forall k,
    length (filter q (firstn k l)) <= length (filter p (firstn k l)).

Fixpoint pacedb {A} (p q : A -> bool) (np nq : nat) (l : list A) : bool :=
  (nq <=? np) &&
  match l with
  | [] => true
  | a :: l' =>
      pacedb p q ((if p a then 1 else 0) + np) ((if q a then 1 else 0) + nq) l'
  end.

(** Calls without their arguments. *)
Inductive kind : Type :=
| KImport
| KLoadMnist
| KTorchLoad
| KNet
| KLoadStateDict
| KCrossEntropyLoss
| KParameters
| KAdam
| KPyTorchClassifier
| KPredict
| KLabelOnlyDecisionBoundary
| KCalibrate (recv : V.var)
| KCalibrateUnsupervised (recv : V.var)
| KChoice
| KInfer (recv : V.var)
| KAccuracyScore
| KPrintBaseAccuracy
| KPrintAccuracy.

(** The steps the notebook's overview names.  Reporting the inference
    accuracy is computing it with [accuracy_score] and printing it. *)
Inductive stage : Type :=
| LoadData
| LoadModel
| Wrap
| Instantiate
| Calibrate
| Infer
| Score
| Report.

Definition stage_of (k : kind) : option stage :=
  match k with
  | KLoadMnist => Some LoadData
  | KTorchLoad | KNet | KLoadStateDict => Some LoadModel
  | KPyTorchClassifier => Some Wrap
  | KLabelOnlyDecisionBoundary => Some Instantiate
  | KCalibrate _ | KCalibrateUnsupervised _ => Some Calibrate
  | KInfer _ => Some Infer
  | KAccuracyScore => Some Score
  | KPrintAccuracy => Some Report
  | KImport | KCrossEntropyLoss | KParameters | KAdam | KPredict | KChoice
  | KPrintBaseAccuracy =>
      None
  end.

Definition stages (ks : list kind) : list stage :=
  flat_map (fun k => match stage_of k with Some s => [s] | None => [] end) ks.

(** One attack, start to finish. *)
Definition attack_pipeline : list stage :=
  [Instantiate; Calibrate; Infer; Score; Report].

Definition pipeline : list stage :=
  [LoadData; LoadModel; LoadModel; LoadModel; Wrap]
  ++ attack_pipeline ++ attack_pipeline.

Definition is_load_data (k : kind) : bool :=
  match k with KLoadMnist => true | _ => false end.

Definition is_load_model (k : kind) : bool :=
  match k with KLoadStateDict => true | _ => false end.

Definition is_wrap (k : kind) : bool :=
  match k with KPyTorchClassifier => true | _ => false end.

Definition is_instantiate (k : kind) : bool :=
  match k with KLabelOnlyDecisionBoundary => true | _ => false end.

Definition is_calibrate (k : kind) : bool :=
  match k with
  | KCalibrate _ | KCalibrateUnsupervised _ => true
  | _ => false
  end.

Definition is_supervised (k : kind) : bool :=
  match k with KCalibrate _ => true | _ => false end.

Definition is_unsupervised (k : kind) : bool :=
  match k with KCalibrateUnsupervised _ => true | _ => false end.

Definition is_infer (k : kind) : bool :=
  match k with KInfer _ => true | _ => false end.

Definition is_score (k : kind) : bool :=
  match k with KAccuracyScore => true | _ => false end.

Definition is_print_accuracy (k : kind) : bool :=
  match k with KPrintAccuracy => true | _ => false end.

Definition is_draw (k : kind) : bool :=
  match k with KChoice => true | _ => false end.

Definition is_calibrate_of (r : V.var) (k : kind) : bool :=
  match k with
  | KCalibrate r' | KCalibrateUnsupervised r' => V.eqb r r'
  | _ => false
  end.

Definition is_infer_of (r : V.var) (k : kind) : bool :=
  match k with KInfer r' => V.eqb r r' | _ => false end.

Definition count (p : kind -> bool) (ks : list kind) : nat :=
  length (filter p ks).

(** The calls of a complete run, in the order the cells make them. *)
Definition script : list kind :=
  [ KImport; KImport; KImport; KImport;
    KImport; KLoadMnist;
    KTorchLoad; KNet; KLoadStateDict;
    KImport; KImport; KCrossEntropyLoss; KParameters; KAdam;
    KPyTorchClassifier; KPredict; KPrintBaseAccuracy;
    KImport; KLabelOnlyDecisionBoundary;
    KCalibrate V.mia_label_only;
    KImport; KChoice;
    KInfer V.mia_label_only;
    KImport; KAccuracyScore; KPrintAccuracy;
    KLabelOnlyDecisionBoundary;
    KCalibrateUnsupervised V.mia_label_only_unsupervised;
    KInfer V.mia_label_only_unsupervised;
    KAccuracyScore; KPrintAccuracy ].

Section Vocabulary.
Context {L : Library}.

Definition kind_of (e : event) : kind :=
  match e with
  | EImport _ _ => KImport
  | ELoadMnist _ => KLoadMnist
  | ETorchLoad _ => KTorchLoad
  | ENet => KNet
  | ELoadStateDict _ _ => KLoadStateDict
  | ECrossEntropyLoss => KCrossEntropyLoss
  | EParameters _ => KParameters
  | EAdam _ => KAdam
  | EPyTorchClassifier _ _ _ _ _ _ _ => KPyTorchClassifier
  | EPredict _ _ => KPredict
  | ELabelOnlyDecisionBoundary _ => KLabelOnlyDecisionBoundary
  | ECalibrate r _ _ _ _ _ => KCalibrate r
  | ECalibrateUnsupervised r _ _ => KCalibrateUnsupervised r
  | EChoice _ _ => KChoice
  | EInfer r _ _ _ => KInfer r
  | EAccuracyScore _ _ => KAccuracyScore
  | EPrint (PBaseAccuracy _ _) => KPrintBaseAccuracy
  | EPrint (PAccuracy _) => KPrintAccuracy
  end.

Definition kinds (st : state) : list kind := map kind_of (trace (out st)).

Definition is_calibration_event (e : event) : bool := is_calibrate (kind_of e).

Definition is_scoring_event (e : event) : bool :=
  is_infer (kind_of e) || is_score (kind_of e).

Definition is_accuracy_event (e : event) : bool := is_score (kind_of e).

(** The lines the [print] calls of a log wrote. *)
Definition printed_of (e : event) : list printed :=
  match e with
  | EPrint p => [p]
  | _ => []
  end.

Definition lines (tr : list event) : list printed := flat_map printed_of tr.

(** The calls that build the model, wrap it and use the wrapper. *)
Definition is_model_event (e : event) : bool :=
  match e with
  | ETorchLoad _ | ENet | ELoadStateDict _ _ | ECrossEntropyLoss
  | EParameters _ | EAdam _ | EPyTorchClassifier _ _ _ _ _ _ _
  | EPredict _ _ | ELabelOnlyDecisionBoundary _ => true
  | _ => false
  end.

(** All statements of the notebook, in order. *)
Definition statements : list stmt := concat notebook.

(** The state after the first [k] statements of a fresh run. *)
Definition after (k : nat) (w : World) : result unit * state :=
  exec_all (firstn k statements) (fresh w).

(** A name is unbound or holds an integer array of zeros and ones. *)
Definition binary (e : env) (v : V.var) : Prop :=
  e v = None \/ exists a, e v = Some (VIntArr a) /\ Forall is_bit (data a).

Definition membership_binary (e : env) : Prop :=
  binary e V.training_sample /\ binary e V.eval_label.

(** A statement keeps a property of the namespace, however it ends. *)
Definition preserves (Inv : env -> Prop) (s : stmt) : Prop :=
  forall st, Inv (names st) -> Inv (names (snd (exec s st))).

(** The names a statement binds. *)
Definition targets (s : stmt) : list V.var :=
  match s with
  | Assign ts _ => ts
  | Expr _ => []
  end.

Definition rebinds (v : V.var) (s : stmt) : bool :=
  existsb (V.eqb v) (targets s).

(** The statements before the one that calls [load_mnist]: the imports of
    [In [2]] and the import that opens [In [62]]. *)
Definition before_loading : nat := length cell_2 + 1.

(** The statements before [In [64]], and those up to the end of [In [76]]. *)
Definition after_loading : nat := length (cell_2 ++ cell_62).

Definition after_sampling : nat :=
  length (cell_2 ++ cell_62 ++ cell_64 ++ cell_69 ++ cell_71 ++ cell_74
          ++ cell_75 ++ cell_76).

(** Two namespaces that bind the same names to the same values. *)
Definition same_names (e e' : env) : Prop := forall v, e v = e' v.

(** *** What the notebook relies on from the libraries *)

(** [load_mnist(raw=True)]: images of shape (N, 28, 28) with N labels. *)
Definition loader_contract : Prop :=
  forall w xtr ytr xte yte lo hi w',
    load_mnist true w = (Returned (xtr, ytr, (xte, yte), lo, hi), w') ->
    exists n m,
      shape xtr = [n; 28; 28] /\ wf xtr /\ shape ytr = [n] /\ wf ytr /\
      shape xte = [m; 28; 28] /\ wf xte /\ shape yte = [m] /\ wf yte.

(** [numpy.random.choice(a, size)]: [size] draws from [range(a)]. *)
Definition choice_contract : Prop :=
  forall a size w idx w',
    choice a size w = (Returned idx, w') ->
    shape idx = [size] /\ wf idx /\ Forall (in_range a) (data idx).

(** [infer(x, y)]: one membership label per sample. *)
Definition infer_contract : Prop :=
  forall t xs ys w p w' k,
    infer t xs ys w = (Returned p, w') ->
    len xs = Ok k ->
    shape p = [k] /\ wf p.

(** [accuracy_score(y_true, y_pred)]: the fraction of agreeing samples. *)
Definition accuracy_contract : Prop :=
  forall yt yp w q w',
    accuracy_score yt yp w = (Returned q, w') ->
    0 < length (data yt) ->
    Qeq q (fraction_equal yt yp).

End Vocabulary.

(** ** A small concrete library

    Enough of an outside world to run the notebook: three MNIST-sized images,
    a classifier that answers class 0, an attack that calls every sample a
    member.  The world is the number of library calls that still succeed, so
    a run can be made to fail at any call. *)

Module Toy.

Definition tick {A} (a : A) (w : nat) : outcome A * nat :=
  match w with
  | 0 => (Failed 0, 0)
  | S w' => (Returned a, w')
  end.

Definition image_data (k : nat) : list Z :=
  map (fun i => Z.of_nat (i mod 256)) (seq 0 (k * 784)).

Definition train_images : ndarray Z := NdArray [2; 28; 28] (image_data 2).
Definition train_labels : ndarray Z := NdArray [2] [3; 5]%Z.
Definition test_images : ndarray Z := NdArray [1; 28; 28] (image_data 1).
Definition test_labels : ndarray Z := NdArray [1] [7%Z].

Definition same_shape (a b : list nat) : bool :=
  if list_eq_dec Nat.eq_dec a b then true else false.

Definition pick (a size : nat) : outcome (ndarray Z) :=
  match a with
  | 0 => Failed 1
  | S _ => Returned (array (map (fun i => Z.of_nat ((7 * i + 1) mod a)) (seq 0 size)))
  end.

Definition score (y_true y_pred : ndarray Z) : outcome Q :=
  if same_shape (shape y_true) (shape y_pred)
  then Returned (Qmake (Z.of_nat (count_equal (data y_true) (data y_pred)))
                 (Pos.of_nat (length (data y_true))))
  else Failed 2.

#[local] Instance library : Library := {|
  World := nat;
  float32 := Z;
  float64 := Z;
  StateDict := unit;
  Model := unit;
  Loss := unit;
  Params := unit;
  Optimizer := unit;
  Classifier := unit;
  Attack := nat;
  np_float32 := fun z => z;
  np_argmax := fun _ => Returned 0%Z;
  np_sum_equal := fun a b => Returned (count_equal (data a) (data b));
  choice := fun a size w =>
    match pick a size with
    | Returned i => tick i w
    | Failed c => (Failed c, w)
    end;
  import_module := fun _ _ => tick tt;
  load_mnist := fun _ =>
    tick (train_images, train_labels, (test_images, test_labels), 0%Z, 255%Z);
  torch_load := fun _ => tick tt;
  Net := tick tt;
  load_state_dict := fun _ _ => tick tt;
  CrossEntropyLoss := tick tt;
  parameters := fun _ => tick tt;
  Adam := fun _ => tick tt;
  PyTorchClassifier := fun _ _ _ _ _ _ _ => tick tt;
  predict := fun _ xs =>
    tick (NdArray [hd 0 (shape xs); 10] (repeat 0%Z (hd 0 (shape xs) * 10)));
  LabelOnlyDecisionBoundary := fun _ w => tick w w;
  calibrate_distance_threshold := fun _ _ _ _ _ => tick tt;
  calibrate_distance_threshold_unsupervised := fun _ _ => tick tt;
  infer := fun _ xs _ =>
    tick (array (repeat 1%Z (hd 0 (shape xs))));
  accuracy_score := fun a b w =>
    match score a b with
    | Returned q => tick q w
    | Failed c => (Failed c, w)
    end
|}.

(** A world in which no call fails. *)
Definition calm : nat := 100.

(** A namespace as [In [74]] may find it: two training samples and one
    test sample of a single pixel each, with their labels. *)
Definition before_74 : state :=
  State
    (bind_vars
       [V.x_train; V.x_test; V.y_train; V.y_test]
       [ VFloatArr (NdArray [2; 1; 1; 1] [10; 20]%Z);
         VFloatArr (NdArray [1; 1; 1; 1] [30%Z]);
         VIntArr (NdArray [2] [3; 5]%Z);
         VIntArr (NdArray [1] [7%Z]) ]
       empty_env)
    (Outside calm [] [] []).

(** The namespace [In [74]] leaves from there: what [In [76]] may find. *)
Definition before_76 : state := snd (exec_all cell_74 before_74).

(** The statement at which a run fails when only five calls succeed. *)
Definition failing_statement : stmt := nth 5 statements (Expr (ret tt)).

End Toy.

(** * Properties *)

(** ** Arrays *)

Section ArrayFacts.
Context {A : Type}.
Implicit Types a b c : ndarray A.

Lemma rbind_ok {X Y} (r : result X) (k : X -> result Y) (y : Y) :
  rbind r k = Ok y -> exists v, r = Ok v /\ k v = Ok y.
Proof. destruct r; simpl; [eauto | discriminate]. Qed.

Lemma len_shape a k : len a = Ok k -> exists t, shape a = k :: t.
Proof.
  unfold len. destruct (shape a) as [|m t]; [discriminate|].
  intros [= ->]. now exists t.
Qed.

Lemma shape_len a k t : shape a = k :: t -> len a = Ok k.
Proof. unfold len. now intros ->. Qed.

Lemma expand_dims_1 a k t r :
  shape a = k :: t -> expand_dims a 1 = Ok r ->
  shape r = k :: 1 :: t /\ data r = data a.
Proof.
  unfold expand_dims, ndim. intros E. rewrite E. simpl.
  intros [= <-]. now simpl.
Qed.

Lemma expand_dims_1_defined a k t :
  shape a = k :: t -> exists r, expand_dims a 1 = Ok r.
Proof.
  unfold expand_dims, ndim. intros ->. simpl. eauto.
Qed.

Lemma size_of_unit_axis (t : list nat) : size_of (1 :: t) = size_of t.
Proof. simpl. lia. Qed.

(** An axis of length one does not move any element. *)
Lemma ravel_unit_axis (k : nat) (t : list nat) (i : nat) (idx : list nat) :
  ravel (k :: 1 :: t) (i :: 0 :: idx) = ravel (k :: t) (i :: idx).
Proof.
  cbn [ravel]. destruct (i <? k); [|reflexivity].
  change (0 <? 1) with true. cbv iota.
  rewrite size_of_unit_axis.
  destruct (ravel t idx) as [o|]; simpl; [|reflexivity].
  f_equal.
Qed.

Lemma ravel_bound (sh idx : list nat) (o : nat) :
  ravel sh idx = Some o -> o < size_of sh.
Proof.
  revert idx o. induction sh as [|k sh IH]; intros [|i idx] o; simpl;
    try discriminate.
  - intros [= <-]. lia.
  - destruct (Nat.ltb_spec i k); [|discriminate].
    destruct (ravel sh idx) as [o'|] eqn:E; [|discriminate].
    simpl. intros [= <-]. specialize (IH _ _ E). nia.
Qed.

Lemma ravel_defined (sh idx : list nat) :
  Forall2 lt idx sh -> exists o, ravel sh idx = Some o.
Proof.
  induction 1 as [|i k idx sh Hlt _ [o IH]]; simpl; [eauto|].
  destruct (Nat.ltb_spec i k); [|lia]. rewrite IH. simpl. eauto.
Qed.

Lemma item_defined a idx :
  wf a -> Forall2 lt idx (shape a) -> exists v, item a idx = Some v.
Proof.
  intros Hwf H. unfold item. destruct (ravel_defined H) as [o E].
  rewrite E. apply ravel_bound in E. rewrite <- Hwf in E.
  destruct (nth_error (data a) o) eqn:N; [eauto|].
  apply nth_error_None in N. lia.
Qed.

Lemma item_array (l : list A) (i : nat) :
  item (array l) [i] = nth_error l i.
Proof.
  unfold item, array. cbn [shape data ravel].
  destruct (Nat.ltb_spec i (length l)) as [H|H]; simpl.
  - f_equal. lia.
  - symmetry. now apply nth_error_None.
Qed.

(** *** Concatenation of two arrays *)

Lemma concatenate_two a b c :
  concatenate [a; b] = Ok c ->
  exists n m t,
    shape a = n :: t /\ shape b = m :: t /\
    shape c = (n + m) :: t /\ data c = data a ++ data b.
Proof.
  unfold concatenate. destruct (shape a) as [|n t] eqn:Ea; [discriminate|].
  cbn [forallb]. unfold same_tail.
  destruct (shape b) as [|m tb] eqn:Eb; [discriminate|].
  destruct (list_eq_dec Nat.eq_dec t tb) as [<-|]; [|discriminate].
  cbn. intros [= <-]. exists n, m, t. cbn [shape data].
  rewrite Ea, Eb, app_nil_r. cbn [hd].
  repeat split; f_equal; lia.
Qed.

Lemma concatenate_two_defined a b n m t :
  shape a = n :: t -> shape b = m :: t ->
  exists c, concatenate [a; b] = Ok c.
Proof.
  intros Ea Eb. unfold concatenate. rewrite Ea. cbn [forallb].
  unfold same_tail. rewrite Eb.
  destruct (list_eq_dec Nat.eq_dec t t); [|congruence]. cbn. eauto.
Qed.

Lemma concatenate_two_raises a b e :
  concatenate [a; b] = Raise e -> e = ValueError.
Proof.
  unfold concatenate. destruct (shape a); [now intros [= <-]|].
  destruct (forallb _ _); [discriminate | now intros [= <-]].
Qed.

Lemma concatenate_wf a b c :
  wf a -> wf b -> concatenate [a; b] = Ok c -> wf c.
Proof.
  intros Ha Hb H. destruct (concatenate_two _ _ H) as (n & m & t & Ea & Eb & Ec & Ed).
  unfold wf in *. rewrite Ec, Ed, length_app, Ha, Hb, Ea, Eb. simpl. lia.
Qed.

Lemma row_concatenate_left a b c n t i :
  wf a -> shape a = n :: t -> concatenate [a; b] = Ok c -> i < n ->
  row c i = row a i.
Proof.
  intros Hwf Ea H Hi.
  destruct (concatenate_two _ _ H) as (n' & m & t' & Ea' & Eb & Ec & Ed).
  rewrite Ea in Ea'. injection Ea' as <- <-.
  unfold row, row_size. rewrite Ec, Ea, Ed. cbn [tl].
  unfold wf in Hwf. rewrite Ea in Hwf. cbn [size_of fold_right] in Hwf.
  fold (size_of t) in *.
  assert (Hle : i * size_of t + size_of t <= length (data a)) by nia.
  rewrite skipn_app, firstn_app, length_skipn.
  replace (i * size_of t - length (data a)) with 0 by lia.
  replace (size_of t - (length (data a) - i * size_of t)) with 0 by lia.
  cbn [skipn firstn]. now rewrite app_nil_r.
Qed.

Lemma row_concatenate_right a b c n t i :
  wf a -> shape a = n :: t -> concatenate [a; b] = Ok c -> n <= i ->
  row c i = row b (i - n).
Proof.
  intros Hwf Ea H Hi.
  destruct (concatenate_two _ _ H) as (n' & m & t' & Ea' & Eb & Ec & Ed).
  rewrite Ea in Ea'. injection Ea' as <- <-.
  unfold row, row_size. rewrite Ec, Eb, Ed. cbn [tl].
  unfold wf in Hwf. rewrite Ea in Hwf. cbn [size_of fold_right] in Hwf.
  fold (size_of t) in *.
  rewrite skipn_app, (skipn_all2 (n := i * size_of t) (data a)) by nia.
  cbn [app]. f_equal. f_equal. rewrite Hwf. nia.
Qed.

(** *** Slices and index arrays *)

Lemma slice_to_ok a k r :
  slice_to a k = Ok r ->
  exists n t, shape a = n :: t /\ shape r = Nat.min k n :: t /\
              data r = firstn (Nat.min k n * size_of t) (data a).
Proof.
  unfold slice_to. destruct (shape a) as [|n t]; [discriminate|].
  intros [= <-]. now exists n, t.
Qed.

Lemma slice_to_defined a k n t :
  shape a = n :: t -> exists r, slice_to a k = Ok r.
Proof. unfold slice_to. intros ->. eauto. Qed.

Lemma slice_to_raises a k e : slice_to a k = Raise e -> shape a = [].
Proof. unfold slice_to. now destruct (shape a). Qed.

(** [a[:k]] is an initial segment of [a]. *)
Lemma slice_to_prefix a k r :
  slice_to a k = Ok r -> prefix (data r) (data a).
Proof.
  intros H. destruct (slice_to_ok _ _ H) as (n & t & _ & _ & ->).
  eexists. symmetry. apply firstn_skipn.
Qed.

Lemma slice_to_wf a k r : wf a -> slice_to a k = Ok r -> wf r.
Proof.
  intros Hwf H. destruct (slice_to_ok _ _ H) as (n & t & Ea & Er & Ed).
  unfold wf in *. rewrite Er, Ed, length_firstn, Hwf, Ea.
  cbn [size_of fold_right]. fold (size_of t). nia.
Qed.

Lemma norm_index_in_range (n : nat) (i : Z) :
  in_range n i -> norm_index n i = Ok (Z.to_nat i) /\ Z.to_nat i < n.
Proof.
  unfold in_range, norm_index. intros [H0 H1].
  destruct (Z.leb_spec 0 i); [|lia].
  destruct (Z.ltb_spec i (Z.of_nat n)); [|lia].
  split; [reflexivity | lia].
Qed.

Lemma norm_index_ok (n : nat) (i : Z) (k : nat) :
  norm_index n i = Ok k -> k < n.
Proof.
  unfold norm_index.
  destruct (Z.leb_spec 0 i).
  - destruct (Z.ltb_spec i (Z.of_nat n)); [|discriminate].
    intros [= <-]. lia.
  - destruct (Z.leb_spec (- Z.of_nat n) i); [|discriminate].
    intros [= <-]. lia.
Qed.

Lemma rmap_ok {X Y} (f : X -> result Y) (l : list X) (ks : list Y) :
  rmap f l = Ok ks ->
  length ks = length l /\
  forall k, In k ks -> exists i, In i l /\ f i = Ok k.
Proof.
  revert ks. induction l as [|i l IH]; simpl; intros ks.
  - intros [= <-]. split; [reflexivity | intros k []].
  - intros H. apply rbind_ok in H as (k0 & Ek0 & H).
    apply rbind_ok in H as (ks0 & Eks0 & H). injection H as <-.
    destruct (IH _ Eks0) as [Hlen Hin]. split; [simpl; lia|].
    intros k [<-|Hk]; [eauto|].
    destruct (Hin _ Hk) as (j & ? & ?). eauto.
Qed.

Lemma rmap_defined {X Y} (f : X -> result Y) (l : list X) :
  Forall (fun i => exists k, f i = Ok k) l -> exists ks, rmap f l = Ok ks.
Proof.
  induction 1 as [|i l [k Ek] _ [ks Eks]]; simpl; [eauto|].
  rewrite Ek, Eks. simpl. eauto.
Qed.

Lemma take_ok a idx r :
  take a idx = Ok r ->
  exists n t ks,
    shape a = n :: t /\ rmap (norm_index n) (data idx) = Ok ks /\
    shape r = shape idx ++ t /\ data r = flat_map (row a) ks.
Proof.
  unfold take. destruct (shape a) as [|n t]; [discriminate|].
  intros H. apply rbind_ok in H as (ks & Eks & H). injection H as <-.
  now exists n, t, ks.
Qed.

(** Indexing with in-range indices cannot raise. *)
Lemma take_defined a idx n t :
  shape a = n :: t -> Forall (in_range n) (data idx) ->
  exists r, take a idx = Ok r.
Proof.
  intros Ea H. unfold take. rewrite Ea.
  destruct (rmap_defined (norm_index n) (l := data idx)) as [ks ->].
  - eapply Forall_impl; [|exact H]. intros i Hi.
    destruct (norm_index_in_range Hi). eauto.
  - simpl. eauto.
Qed.

Lemma row_length a n t i :
  wf a -> shape a = n :: t -> i < n -> length (row a i) = size_of t.
Proof.
  intros Hwf Ea Hi. unfold row, row_size. rewrite Ea. cbn [tl].
  unfold wf in Hwf. rewrite Ea in Hwf. cbn [size_of fold_right] in Hwf.
  fold (size_of t) in *.
  rewrite length_firstn, length_skipn, Hwf. nia.
Qed.

Lemma row_incl a i v : In v (row a i) -> In v (data a).
Proof.
  unfold row. intros H.
  rewrite <- (firstn_skipn (i * row_size a) (data a)).
  apply in_or_app. right.
  rewrite <- (firstn_skipn (row_size a) (skipn _ (data a))).
  apply in_or_app. now left.
Qed.

Lemma take_wf a idx r :
  wf a -> wf idx -> take a idx = Ok r -> wf r.
Proof.
  intros Ha Hi H.
  destruct (take_ok _ _ H) as (n & t & ks & Ea & Eks & Er & Ed).
  destruct (rmap_ok _ _ Eks) as [Hlen Hin].
  unfold wf. rewrite Er, Ed.
  assert (Hsz : size_of (shape idx ++ t) = length ks * size_of t).
  { rewrite Hlen, Hi. clear. induction (shape idx) as [|k sh IH]; simpl.
    - lia.
    - fold (size_of sh). fold (size_of (sh ++ t)). rewrite IH. lia. }
  rewrite Hsz. clear Hsz Hlen Eks Ed.
  induction ks as [|k ks IH]; simpl; [reflexivity|].
  rewrite length_app, IH by (intros; apply Hin; now right).
  f_equal. destruct (Hin k (or_introl eq_refl)) as (i & _ & Ei).
  apply norm_index_ok in Ei. eapply row_length; eassumption.
Qed.

(** Indexing only moves elements around. *)
Lemma take_Forall (P : A -> Prop) a idx r :
  Forall P (data a) -> take a idx = Ok r -> Forall P (data r).
Proof.
  intros HP H.
  destruct (take_ok _ _ H) as (n & t & ks & _ & _ & _ & ->).
  apply Forall_forall. intros v Hv. apply in_flat_map in Hv as (k & _ & Hv).
  rewrite Forall_forall in HP. apply HP. eapply row_incl; eassumption.
Qed.

End ArrayFacts.

(** ** Reshaping the images *)

Section ReshapeFacts.
Context {L : Library}.

Lemma item_astype {X Y} (f : X -> Y) (a : ndarray X) (idx : list nat) :
  item (astype f a) idx = option_map f (item a idx).
Proof.
  unfold item, astype. cbn [shape data].
  destruct (ravel (shape a) idx); [|reflexivity].
  apply nth_error_map.
Qed.

Lemma astype_wf {X Y} (f : X -> Y) (a : ndarray X) : wf a -> wf (astype f a).
Proof. unfold wf, astype. cbn [shape data]. now rewrite length_map. Qed.

Lemma reshape_images_ok (a : ndarray Z) (k : nat) (t : list nat) :
  shape a = k :: t ->
  exists r, reshape_images a = Ok r /\ shape r = k :: 1 :: t /\
            data r = map np_float32 (data a).
Proof.
  intros Ea. unfold reshape_images.
  destruct (expand_dims_1_defined a Ea) as [e He]. rewrite He. cbn [rbind].
  destruct (expand_dims_1 a Ea He) as [Es Ed].
  eexists. split; [reflexivity|]. unfold astype. cbn [shape data].
  now rewrite Es, Ed.
Qed.

Lemma reshape_images_shape (a : ndarray Z) (r : ndarray float32) :
  reshape_images a = Ok r ->
  exists k t, shape a = k :: t /\ shape r = k :: 1 :: t /\
              data r = map np_float32 (data a).
Proof.
  intros H. destruct (shape a) as [|k t] eqn:Ea.
  - unfold reshape_images, expand_dims, ndim in H. rewrite Ea in H.
    discriminate.
  - destruct (reshape_images_ok a Ea) as (r' & Hr' & Es & Ed).
    rewrite H in Hr'. injection Hr' as <-. now exists k, t.
Qed.

Lemma reshape_images_wf (a : ndarray Z) (r : ndarray float32) :
  wf a -> reshape_images a = Ok r -> wf r.
Proof.
  intros Hwf H. destruct (reshape_images_shape a H) as (k & t & Ea & Es & Ed).
  unfold wf in *. rewrite Es, Ed, length_map, Hwf, Ea. simpl. lia.
Qed.

Lemma reshape_images_raises (a : ndarray Z) (e : exn) :
  reshape_images a = Raise e -> e = AxisError.
Proof.
  unfold reshape_images, expand_dims.
  destruct (1 <=? ndim a); cbn [rbind]; [discriminate | now intros [= <-]].
Qed.

End ReshapeFacts.

(** ** Running statements *)

Lemma var_eqb_spec (a b : V.var) : reflect (a = b) (V.eqb a b).
Proof. destruct a, b; simpl; constructor; congruence. Qed.

Section ExecFacts.
Context {L : Library}.

Lemma exec_all_cons s ss st :
  exec_all (s :: ss) st =
  match exec s st with
  | (Ok _, st') => exec_all ss st'
  | (Raise e, st') => (Raise e, st')
  end.
Proof. reflexivity. Qed.

Lemma run_cells_cons c cs st :
  run_cells (c :: cs) st =
  match exec_all c st with
  | (Ok _, st') => run_cells cs st'
  | (Raise e, st') => (Raise e, st')
  end.
Proof. reflexivity. Qed.

Lemma exec_all_app ss1 ss2 st :
  exec_all (ss1 ++ ss2) st =
  match exec_all ss1 st with
  | (Ok _, st') => exec_all ss2 st'
  | (Raise e, st') => (Raise e, st')
  end.
Proof.
  revert st. induction ss1 as [|s ss1 IH]; intros st; simpl; [reflexivity|].
  destruct (exec s st) as [[[]|e] st']; [apply IH | reflexivity].
Qed.

(** Running cell after cell is running statement after statement. *)
Lemma run_cells_concat cs st : run_cells cs st = exec_all (concat cs) st.
Proof.
  revert st. induction cs as [|c cs IH]; intros st; simpl; [reflexivity|].
  rewrite exec_all_app.
  destruct (exec_all c st) as [[[]|e] st']; [apply IH | reflexivity].
Qed.

Lemma run_statements w : run w = exec_all statements (fresh w).
Proof. apply run_cells_concat. Qed.

Lemma after_all w : after (length statements) w = run w.
Proof. unfold after. now rewrite firstn_all, run_statements. Qed.

(** A statement that raises leaves every name as it was. *)
Lemma exec_raise_names s st e st' :
  exec s st = (Raise e, st') -> names st' = names st.
Proof.
  destruct s as [ts rhs|rhs]; simpl.
  - destruct (rhs (names st) (out st)) as [[vs|x] o].
    + destruct (Nat.eqb _ _); [discriminate | now intros [= _ <-]].
    + now intros [= _ <-].
  - destruct (rhs (names st) (out st)) as [r o]. now intros [= _ <-].
Qed.

(** An expression statement binds nothing. *)
Lemma exec_expr_names rhs st r st' :
  exec (Expr rhs) st = (r, st') -> names st' = names st.
Proof.
  simpl. destruct (rhs (names st) (out st)) as [r' o]. now intros [= _ <-].
Qed.

Lemma bind_vars_other ts vs e v :
  ~ In v ts -> bind_vars ts vs e v = e v.
Proof.
  revert vs e. induction ts as [|t ts IH]; intros vs e Hv; [reflexivity|].
  destruct vs as [|a vs]; [reflexivity|]. cbn [bind_vars].
  rewrite IH by (intros H; apply Hv; now right).
  unfold bind_var. destruct (var_eqb_spec t v) as [->|]; [|reflexivity].
  exfalso. apply Hv. now left.
Qed.

(** An assignment changes its targets only. *)
Lemma exec_assign_other ts rhs st r st' v :
  ~ In v ts -> exec (Assign ts rhs) st = (r, st') -> names st' v = names st v.
Proof.
  intros Hv. simpl. destruct (rhs (names st) (out st)) as [[vs|x] o].
  - destruct (Nat.eqb _ _); intros [= _ <-]; [|reflexivity].
    now apply bind_vars_other.
  - now intros [= _ <-].
Qed.

(** Once a statement has raised, nothing later runs. *)
Lemma exec_all_stops ss k s e st :
  nth_error ss k = Some s ->
  fst (exec_all (firstn k ss) st) = Ok tt ->
  fst (exec s (snd (exec_all (firstn k ss) st))) = Raise e ->
  forall j, k < j ->
    exec_all (firstn j ss) st
    = (Raise e, snd (exec s (snd (exec_all (firstn k ss) st)))).
Proof.
  intros Hs Hk He j Hj.
  assert (Hsplit : firstn j ss = firstn k ss ++ s :: firstn (j - S k) (skipn (S k) ss)).
  { rewrite <- (firstn_skipn k ss) at 1.
    assert (Hlen : length (firstn k ss) = k).
    { rewrite length_firstn. apply Nat.min_l.
      apply Nat.lt_le_incl. apply nth_error_Some. congruence. }
    rewrite firstn_app, Hlen, firstn_firstn.
    replace (Nat.min j k) with k by lia. f_equal.
    clear - Hs Hj. revert k j Hs Hj.
    induction ss as [|a ss IH]; intros [|k] j Hs Hj; try discriminate.
    - injection Hs as ->. destruct j as [|j]; [lia|].
      cbn. now rewrite Nat.sub_0_r.
    - destruct j as [|j]; [lia|]. cbn [skipn Nat.sub].
      replace (S j - S k) with (j - k) by lia.
      specialize (IH k j Hs ltac:(lia)).
      replace (j - k) with (S (j - S k)) in * by lia.
      cbn [firstn] in *. exact IH. }
  rewrite Hsplit, exec_all_app.
  destruct (exec_all (firstn k ss) st) as [[[]|x] st1]; [|discriminate].
  cbn [snd] in *. rewrite exec_all_cons.
  destruct (exec s st1) as [[[]|x] st2]; cbn [fst snd] in *;
    [discriminate | congruence].
Qed.

End ExecFacts.

(** ** Order facts on lists *)

Section OrderFacts.
Context {A : Type}.

Lemma prefix_flat_map {B} (f : A -> list B) (l1 l2 : list A) :
  prefix l1 l2 -> prefix (flat_map f l1) (flat_map f l2).
Proof. intros [t ->]. exists (flat_map f t). apply flat_map_app. Qed.

Lemma prefix_filter_length (p : A -> bool) (l1 l2 : list A) :
  prefix l1 l2 -> length (filter p l1) <= length (filter p l2).
Proof. intros [t ->]. rewrite filter_app, length_app. lia. Qed.

Lemma precedes_prefix (p q : A -> bool) (l1 l2 : list A) :
  prefix l1 l2 -> precedes p q l2 -> precedes p q l1.
Proof.
  intros [t ->] H i b Hi Hq.
  assert (Hlt : i < length l1) by (apply nth_error_Some; congruence).
  destruct (H i b) as (j & a & Hj & Ha & Hp); [|assumption|].
  - now rewrite nth_error_app1.
  - exists j, a. repeat split; try assumption.
    rewrite nth_error_app1 in Ha by lia. exact Ha.
Qed.

Lemma guarded_sound (p q : A -> bool) (l : list A) (seen : bool) :
  guarded p q seen l = true ->
  forall i b, nth_error l i = Some b -> q b = true ->
  seen = true \/ exists j a, j < i /\ nth_error l j = Some a /\ p a = true.
Proof.
  revert seen. induction l as [|a l IH]; intros seen H i b Hi Hq.
  - now destruct i.
  - cbn [guarded] in H. apply andb_prop in H as [H1 H2].
    destruct i as [|i]; cbn [nth_error] in Hi.
    + injection Hi as ->. rewrite Hq in H1. now left.
    + destruct (IH _ H2 _ _ Hi Hq) as [Hs|(j & c & Hj & Hc & Hp)].
      * apply orb_prop in Hs as [Hs|Hs]; [now left|].
        right. exists 0, a. repeat split; [lia | assumption].
      * right. exists (S j), c. repeat split; [lia | assumption..].
Qed.

Lemma guarded_precedes (p q : A -> bool) (l : list A) :
  guarded p q false l = true -> precedes p q l.
Proof.
  intros H i b Hi Hq.
  destruct (guarded_sound _ _ _ _ H _ Hi Hq) as [|]; [discriminate|assumption].
Qed.

Lemma pacedb_sound (p q : A -> bool) (l : list A) (np nq : nat) :
  pacedb p q np nq l = true ->
  forall k,
    nq + length (filter q (firstn k l)) <= np + length (filter p (firstn k l)).
Proof.
  revert np nq. induction l as [|a l IH]; intros np nq H k;
    cbn [pacedb] in H; apply andb_prop in H as [H1 H2];
    apply Nat.leb_le in H1.
  - destruct k; cbn; lia.
  - destruct k as [|k]; [cbn; lia|].
    cbn [firstn filter]. specialize (IH _ _ H2 k).
    destruct (p a), (q a); cbn [length]; lia.
Qed.

Lemma pacedb_paced (p q : A -> bool) (l : list A) :
  pacedb p q 0 0 l = true -> paced p q l.
Proof. intros H k. apply (pacedb_sound _ _ _ _ _ H k). Qed.

Lemma paced_prefix (p q : A -> bool) (l1 l2 : list A) :
  prefix l1 l2 -> paced p q l2 -> paced p q l1.
Proof.
  intros [t ->] H k. destruct (Nat.le_gt_cases k (length l1)) as [Hk|Hk].
  - specialize (H k). rewrite firstn_app in H.
    replace (k - length l1) with 0 in H by lia.
    cbn [firstn] in H. now rewrite app_nil_r in H.
  - rewrite firstn_all2 by lia. specialize (H (length l1)).
    rewrite firstn_app, Nat.sub_diag, firstn_all in H.
    cbn [firstn] in H. now rewrite app_nil_r in H.
Qed.

End OrderFacts.

Lemma stages_script : stages script = pipeline.
Proof. reflexivity. Qed.

(** ** Symbolic execution of the notebook

    [run_cases H] takes [H : run w = (r, st)] through the cells one
    statement at a time, splitting on what every library call and every array
    operation gives, and leaves one goal per way the run can end. *)

Ltac reduce_in H :=
  cbv beta iota zeta delta
      [exec bind call lift lift_lib ret raise print lookup
       get_int_arr get_float_arr get_int get_float get_state_dict get_model
       get_loss get_optimizer get_classifier get_attack
       names out world trace raised stdout bind_vars bind_var V.eqb
       empty_env length Nat.eqb fst snd] in H;
  cbn [app from_lib] in H.

Ltac split_in H :=
  match type of H with
  | context [match ?X with pair _ _ => _ end] =>
      lazymatch type of X with
      | (outcome _ * _)%type =>
          let E := fresh "E" in
          destruct X as [[?|?] ?] eqn:E
      | _ => is_var X; destruct X
      end
  | context [match ?X with Ok _ => _ | Raise _ => _ end] =>
      lazymatch type of X with
      | result _ =>
          let E := fresh "E" in
          destruct X eqn:E
      end
  | context [match ?X with Returned _ => _ | Failed _ => _ end] =>
      lazymatch type of X with
      | outcome _ =>
          let E := fresh "E" in
          destruct X eqn:E
      end
  end.

(** Uses what is already known about a lookup or an array operation. *)
Ltac known_in H :=
  repeat match goal with
         | Hn : _ = Some _ |- _ => rewrite Hn in H
         | Hn : _ = Ok _ |- _ => rewrite Hn in H
         end.

(** Uses what is already known about a library call. *)
Ltac known_calls_in H :=
  repeat match goal with
         | Hn : _ = (Returned _, _) |- _ => rewrite Hn in H
         end.

Ltac exec_with more learn H :=
  repeat
    (lazymatch type of H with
     | context [exec_all (?s :: ?ss) ?st1] =>
         rewrite (exec_all_cons s ss st1) in H;
         let k := fresh "k" in
         set (k := exec_all ss) in H;
         repeat (reduce_in H; first [more H | split_in H]);
         reduce_in H;
         subst k;
         learn
     | context [exec_all [] ?st1] =>
         change (exec_all [] st1) with (@Ok unit tt, st1) in H;
         cbv beta iota in H
     end).

(** From a namespace that is known in full. *)
Ltac exec_in H := exec_with ltac:(fun _ => fail) ltac:(idtac) H.

(** From a namespace described by hypotheses. *)
Ltac exec_known_in H :=
  exec_with ltac:(fun H' => progress known_in H') ltac:(idtac) H.

Ltac unfold_cells_in H :=
  cbv beta delta [cell_2 cell_62 cell_64 cell_69 cell_71 cell_74 cell_75
                  cell_76 cell_77 cell_79 cell_80 cell_81 cell_82 cell_83
                  import_] in H.

Ltac step_in learn H :=
  lazymatch type of H with
  | run_cells (?c :: ?cs) ?st = _ =>
      rewrite (run_cells_cons c cs st) in H;
      let kc := fresh "kc" in
      set (kc := run_cells cs) in H;
      unfold_cells_in H;
      exec_with ltac:(fun _ => fail) learn H;
      subst kc
  | run_cells [] ?st = _ =>
      cbn [run_cells] in H; injection H as <- <-
  | (Raise _, _) = (_, _) => injection H as <- <-
  end.

(** [learn] is run after every statement, on what the run has met so far. *)
Ltac run_cases_with learn H :=
  unfold run, notebook, fresh in H;
  repeat step_in learn H.

Ltac run_cases H := run_cases_with ltac:(idtac) H.

(** ** The order of the library calls *)

Section CallOrder.
Context {L : Library}.

(** What every run leaves in its log, whatever the libraries do.  The calls
    made are an initial segment of the script, and all of it when the run
    completes.  At most one call raised: it is the last call made and what it
    raised is the outcome of the run.  The classifier wrapper is only ever
    built channels first, for inputs of shape [input_shape] and 10 classes.
    The output holds the lines the [print] calls of the log wrote. *)
Lemma run_log w r st :
  run w = (r, st) ->
  (prefix (kinds st) script /\ (r = Ok tt -> kinds st = script)) /\
  match raised (out st) with
  | [] => True
  | [(ev, c)] =>
      r = Raise (LibraryError c) /\
      last (map Some (trace (out st))) None = Some ev
  | _ => False
  end /\
  (forall m l o cf sh nb cv,
     In (EPyTorchClassifier m l o cf sh nb cv) (trace (out st)) ->
     cf = true /\ sh = input_shape /\ nb = 10) /\
  stdout (out st) = lines (trace (out st)).
Proof.
  intros H. run_cases H.
  all: split; [|split; [|split]]; [| | |reflexivity].
  all: try (unfold kinds; cbn [out trace map kind_of]; split;
            [ unfold script; eexists; cbn [app]; reflexivity
            | first [ discriminate | reflexivity ] ]).
  all: try (cbv [out raised trace]; cbn [map last];
            first [ exact I | split; reflexivity ]).
  all: intros m l o cf sh nb cv Hin; cbv [out trace] in Hin; cbn [In] in Hin;
    repeat match goal with
           | Hd : _ \/ _ |- _ => destruct Hd as [Hd|Hd]
           end;
    first
      [ contradiction
      | match goal with
        | He : _ = EPyTorchClassifier _ _ _ _ _ _ _ |- _ =>
            first [ discriminate He | inversion He; auto ]
        end ].
Qed.

Lemma kinds_of_run w r st :
  run w = (r, st) ->
  prefix (kinds st) script /\ (r = Ok tt -> kinds st = script).
Proof. intros H. apply (run_log w H). Qed.

Lemma wrap_arguments w m l o cf sh nb cv :
  In (EPyTorchClassifier m l o cf sh nb cv) (trace (out (snd (run w)))) ->
  cf = true /\ sh = input_shape /\ nb = 10.
Proof.
  destruct (run w) as [r st] eqn:H. cbn [snd].
  apply (run_log w H).
Qed.

Lemma kinds_prefix w : prefix (kinds (snd (run w))) script.
Proof. destruct (run w) as [r st] eqn:H. now apply (kinds_of_run _ H). Qed.

Lemma kinds_completed w : fst (run w) = Ok tt -> kinds (snd (run w)) = script.
Proof.
  destruct (run w) as [r st] eqn:H. cbn [fst snd].
  now apply (kinds_of_run _ H).
Qed.

Lemma count_le_script (p : kind -> bool) w :
  count p (kinds (snd (run w))) <= count p script.
Proof. apply prefix_filter_length, kinds_prefix. Qed.

End CallOrder.

(** ** How often, and in which order, the libraries are called *)

Section Pipeline.
Context {L : Library}.

(** C1 (amended).  In every run, however it ends, the classifier wrapper is
    built at most once, the attack is instantiated at most twice, each of
    the two calibrations is called at most once, and [infer] and
    [accuracy_score] are called at most twice, at most once for each attack
    object.  A run that completes wraps the model exactly once and goes
    through the attack exactly twice, once per way of calibrating: two calls
    of [LabelOnlyDecisionBoundary], one supervised and one unsupervised
    calibration, two calls of [infer], two calls of [accuracy_score], with
    one calibration and one [infer] on [mia_label_only] and one of each on
    [mia_label_only_unsupervised]. *)
Theorem attack_runs_twice (w : World) :
  let ks := kinds (snd (run w)) in
  (count is_wrap ks <= 1 /\ count is_instantiate ks <= 2 /\
   count is_calibrate ks <= 2 /\
   count is_supervised ks <= 1 /\ count is_unsupervised ks <= 1 /\
   count is_infer ks <= 2 /\ count is_score ks <= 2 /\
   (forall r : V.var,
      count (is_calibrate_of r) ks <= 1 /\ count (is_infer_of r) ks <= 1)) /\
  (fst (run w) = Ok tt ->
   count is_wrap ks = 1 /\ count is_instantiate ks = 2 /\
   count is_supervised ks = 1 /\ count is_unsupervised ks = 1 /\
   count is_infer ks = 2 /\ count is_score ks = 2 /\
   count (is_calibrate_of V.mia_label_only) ks = 1 /\
   count (is_infer_of V.mia_label_only) ks = 1 /\
   count (is_calibrate_of V.mia_label_only_unsupervised) ks = 1 /\
   count (is_infer_of V.mia_label_only_unsupervised) ks = 1).
Proof.
  cbv zeta. split.
  - repeat match goal with |- _ /\ _ => split end;
      try (lazymatch goal with
           | |- forall r : V.var, _ => intros r; split; destruct r
           end);
      (eapply Nat.le_trans; [apply (count_le_script _ w) | cbv; lia]).
  - intros H. rewrite (kinds_completed w H). repeat split.
Qed.

(** C2 (amended).  In every run the calls are an initial segment of one
    fixed script, and all of it when the run completes: the dataset is
    loaded, the model is loaded, the model is wrapped, and then, twice in
    succession, an attack is instantiated, calibrated and queried, its
    accuracy is computed with [accuracy_score] and the accuracy is printed;
    the first pass calibrates with the held-out labeled data, the second
    without.  What is on the output is what the [print] calls wrote.  No
    attack is instantiated or calibrated before the model is wrapped, the
    model is not wrapped before data and weights are loaded, the evaluation
    indices are drawn before any inference, and an attack object is only
    queried after that same object was calibrated.  Pass by pass: there are
    never more calibrations than instantiations, more inferences than
    calibrations, more accuracies computed than inferences, or more
    accuracies printed than computed. *)
Theorem pipeline_order (w : World) :
  let ks := kinds (snd (run w)) in
  prefix ks script /\
  prefix (stages ks) pipeline /\
  (fst (run w) = Ok tt -> ks = script /\ stages ks = pipeline) /\
  pipeline
  = [LoadData; LoadModel; LoadModel; LoadModel; Wrap;
     Instantiate; Calibrate; Infer; Score; Report;
     Instantiate; Calibrate; Infer; Score; Report] /\
  stdout (out (snd (run w))) = lines (trace (out (snd (run w)))) /\
  precedes is_load_data is_wrap ks /\
  precedes is_load_model is_wrap ks /\
  precedes is_wrap is_instantiate ks /\
  precedes is_wrap is_calibrate ks /\
  precedes is_instantiate is_calibrate ks /\
  precedes is_calibrate is_infer ks /\
  precedes is_draw is_infer ks /\
  (forall r : V.var, precedes (is_calibrate_of r) (is_infer_of r) ks) /\
  precedes is_supervised is_unsupervised ks /\
  precedes is_infer is_score ks /\
  precedes is_score is_print_accuracy ks /\
  paced is_instantiate is_calibrate ks /\
  paced is_calibrate is_infer ks /\
  paced is_infer is_score ks /\
  paced is_score is_print_accuracy ks.
Proof.
  cbv zeta. pose proof (kinds_prefix w) as Hp.
  split; [assumption|]. split.
  { rewrite <- stages_script. now apply prefix_flat_map. }
  split.
  { intros H. now rewrite (kinds_completed w H). }
  split; [reflexivity|].
  split.
  { destruct (run w) as [r st] eqn:H. cbn [snd]. apply (run_log w H). }
  repeat match goal with |- _ /\ _ => split end;
    try (lazymatch goal with
         | |- forall r : V.var, _ => intros r; destruct r
         end);
    first
      [ eapply precedes_prefix; [exact Hp|]; apply guarded_precedes; reflexivity
      | eapply paced_prefix; [exact Hp|]; apply pacedb_paced; reflexivity ].
Qed.

End Pipeline.

(** ** The reshaped images and the classifier wrapper *)

Section Reshape.
Context {L : Library}.

(** C10.  Reshaping an array of shape (N, 28, 28) with
    [np.expand_dims(., axis=1).astype(np.float32)] succeeds and gives an array
    of shape (N, 1, 28, 28): the sample count is still N, no element is added
    or dropped, and the pixel at [i, 0, j, k] is the float32 conversion of the
    input pixel at [i, j, k].  The shape of one sample is the [input_shape]
    of every call of [PyTorchClassifier] a run makes, and every such call is
    made with [channels_first=True]. *)
Theorem reshape_images_preserves_data (N : nat) (a : ndarray Z) :
  shape a = [N; 28; 28] ->
  exists r,
    reshape_images a = Ok r /\
    shape r = [N; 1; 28; 28] /\
    len a = Ok N /\ len r = Ok N /\
    tl (shape r) = input_shape /\
    length (data r) = length (data a) /\
    (wf a -> wf r) /\
    (forall i j k,
       item r [i; 0; j; k] = option_map np_float32 (item a [i; j; k])) /\
    (wf a -> forall i j k, i < N -> j < 28 -> k < 28 ->
       exists p, item a [i; j; k] = Some p /\
                 item r [i; 0; j; k] = Some (np_float32 p)) /\
    (forall w m l o cf sh nb cv,
       In (EPyTorchClassifier m l o cf sh nb cv) (trace (out (snd (run w)))) ->
       cf = true /\ sh = tl (shape r)).
Proof.
  intros Ea. destruct (reshape_images_ok a Ea) as (r & Hr & Es & Ed).
  assert (Hitem : forall i j k,
             item r [i; 0; j; k] = option_map np_float32 (item a [i; j; k])).
  { intros i j k. rewrite <- item_astype. unfold item at 1 2.
    rewrite Es. unfold astype. cbn [shape data]. rewrite Ea, <- Ed.
    now rewrite ravel_unit_axis. }
  exists r. repeat match goal with |- _ /\ _ => split end; try assumption.
  - now apply shape_len with (t := [28; 28]).
  - now apply shape_len with (t := [1; 28; 28]).
  - now rewrite Es.
  - now rewrite Ed, length_map.
  - intros Hwf. eapply reshape_images_wf; eassumption.
  - intros Hwf i j k Hi Hj Hk.
    destruct (item_defined (idx := [i; j; k]) Hwf) as [p Hp].
    { rewrite Ea. repeat (constructor; [assumption|]). constructor. }
    exists p. split; [assumption|]. now rewrite Hitem, Hp.
  - intros w m l o cf sh nb cv Hin.
    destruct (wrap_arguments w _ _ _ _ _ _ _ Hin) as (-> & -> & _).
    split; [reflexivity|]. now rewrite Es.
Qed.

End Reshape.

(** ** Exceptions *)

Section Failure.
Context {L : Library}.

(** What a run records about calls that raised: nothing, or one call, which
    is the last call made and whose exception is the outcome of the run. *)
Lemma raised_of_run w r st :
  run w = (r, st) ->
  match raised (out st) with
  | [] => True
  | [(ev, c)] =>
      r = Raise (LibraryError c) /\
      last (map Some (trace (out st))) None = Some ev
  | _ => False
  end.
Proof. intros H. apply (run_log w H). Qed.

(** C6.  No statement of the notebook catches an exception or tries a call
    again.  In every run a library call that raises is the only one that
    does and the last call made, and what it raised is the outcome of the
    run; a run that completes has seen no call raise.  When a statement
    raises (the first [k] statements having completed), the run ends with
    that very exception; the namespace is the one the failing statement
    found; however many more statements one asks for, the outcome and the
    state stay those of the failure, so that no later statement or cell
    runs; and the library calls made are an initial segment of the
    script. *)
Theorem exceptions_propagate (w : World) :
  (forall ev c,
     In (ev, c) (raised (out (snd (run w)))) ->
     fst (run w) = Raise (LibraryError c) /\
     raised (out (snd (run w))) = [(ev, c)] /\
     last (map Some (trace (out (snd (run w))))) None = Some ev) /\
  (fst (run w) = Ok tt -> raised (out (snd (run w))) = []) /\
  (forall k s e,
     nth_error statements k = Some s ->
     fst (after k w) = Ok tt ->
     fst (exec s (snd (after k w))) = Raise e ->
     run w = (Raise e, snd (exec s (snd (after k w)))) /\
     names (snd (exec s (snd (after k w)))) = names (snd (after k w)) /\
     (forall j, k < j ->
        after j w = (Raise e, snd (exec s (snd (after k w))))) /\
     prefix (kinds (snd (exec s (snd (after k w))))) script).
Proof.
  pose proof (raised_of_run w (surjective_pairing (run w))) as Hr.
  split; [|split].
  - intros ev c Hin.
    destruct (raised (out (snd (run w)))) as [|[ev' c'] [|p l]];
      [destruct Hin | | destruct Hr].
    destruct Hin as [[= -> ->]|[]]. destruct Hr as [Hres Hlast].
    repeat split; assumption.
  - intros Hok.
    destruct (raised (out (snd (run w)))) as [|[ev' c'] [|p l]];
      [reflexivity | | destruct Hr].
    destruct Hr as [Hres _]. rewrite Hres in Hok. discriminate Hok.
  - intros k s e Hs Hk He.
    set (st' := snd (exec s (snd (after k w)))).
    assert (Hstop : forall j, k < j -> after j w = (Raise e, st')).
    { intros j Hj. unfold after. now apply exec_all_stops. }
    assert (Hrun : run w = (Raise e, st')).
    { rewrite <- after_all. apply Hstop. apply nth_error_Some. congruence. }
    repeat split; try assumption.
    + apply exec_raise_names with (s := s) (e := e).
      subst st'. rewrite <- He. apply surjective_pairing.
    + pose proof (kinds_prefix w) as Hp. now rewrite Hrun in Hp.
Qed.

End Failure.

(** ** The membership indicator *)

(** Case analysis on the lookups and array operations of one right-hand
    side, evaluated in a namespace about which nothing is known. *)
Ltac split_rhs H :=
  repeat
    (cbv beta iota zeta delta
         [bind lookup lift lift_lib ret raise
          get_int_arr get_float_arr get_int get_float get_state_dict
          get_model get_loss get_optimizer get_classifier get_attack] in H;
     match type of H with
     | context [match ?X with _ => _ end] =>
         lazymatch X with
         | context [match _ with _ => _ end] => fail
         | _ => let E := fresh "E" in destruct X eqn:E
         end
     end;
     try discriminate H).

Section Membership.
Context {L : Library}.

Lemma is_bit_indicator (k m : nat) :
  Forall is_bit (repeat 1%Z k ++ repeat 0%Z m).
Proof.
  apply Forall_app. split; apply Forall_forall; intros z Hz;
    apply repeat_spec in Hz; subst; [now right | now left].
Qed.

Lemma binary_ext (e e' : env) (v : V.var) :
  e' v = e v -> binary e v -> binary e' v.
Proof. unfold binary. now intros ->. Qed.

Lemma binary_bind_var (e : env) (v : V.var) (a : ndarray Z) :
  Forall is_bit (data a) -> binary (bind_var v (VIntArr a) e) v.
Proof.
  intros H. right. exists a. split; [|assumption].
  unfold bind_var. now destruct (var_eqb_spec v v).
Qed.

Lemma exec_all_preserves (Inv : env -> Prop) (ss : list stmt) :
  Forall (preserves Inv) ss ->
  forall k st, Inv (names st) -> Inv (names (snd (exec_all (firstn k ss) st))).
Proof.
  induction 1 as [|s ss Hs _ IH]; intros [|k] st Hst; try assumption.
  cbn [firstn]. rewrite exec_all_cons. specialize (Hs st Hst).
  destruct (exec s st) as [[[]|e] st1]; cbn [snd] in *; [now apply IH | assumption].
Qed.

Lemma preserves_expr rhs : preserves membership_binary (Expr rhs).
Proof.
  intros st H.
  erewrite exec_expr_names; [exact H | apply surjective_pairing].
Qed.

Lemma preserves_assign ts rhs :
  ~ In V.training_sample ts -> ~ In V.eval_label ts ->
  preserves membership_binary (Assign ts rhs).
Proof.
  intros H1 H2 st [Ht He].
  split; (eapply binary_ext; [|eassumption]);
    eapply exec_assign_other; try eassumption; apply surjective_pairing.
Qed.

(** An assignment to one of the two vectors keeps them binary when the
    value assigned is. *)
Lemma preserves_assign_binary v rhs :
  v = V.training_sample \/ v = V.eval_label ->
  (forall e o vs o',
      membership_binary e -> rhs e o = (Ok vs, o') ->
      exists a, vs = [VIntArr a] /\ Forall is_bit (data a)) ->
  preserves membership_binary (Assign [v] rhs).
Proof.
  intros Hv Hrhs [e o] Hinv. cbn [exec names out].
  destruct (rhs e o) as [[vs|x] o'] eqn:Er; cbn [snd names]; [|assumption].
  destruct (Hrhs _ _ _ _ Hinv Er) as (a & -> & Ha).
  cbn [length Nat.eqb snd names bind_vars]. destruct Hinv as [Ht He].
  destruct Hv as [->| ->]; split;
    solve [ now apply binary_bind_var
          | eapply binary_ext; [|eassumption]; reflexivity ].
Qed.

Lemma statements_keep_membership_binary :
  Forall (preserves membership_binary) statements.
Proof.
  unfold statements, notebook.
  cbv beta delta [cell_2 cell_62 cell_64 cell_69 cell_71 cell_74 cell_75
                  cell_76 cell_77 cell_79 cell_80 cell_81 cell_82 cell_83
                  import_].
  cbn [concat app].
  repeat (apply Forall_cons; [|]); try apply Forall_nil;
    first
      [ apply preserves_expr
      | apply preserves_assign; cbn [In]; intuition discriminate
      | apply preserves_assign_binary; [tauto|] ].
  - (* training_sample = np.array([1] * len(x_train) + [0] * len(x_test)) *)
    intros e o vs o' _ H. split_rhs H. injection H as <- <-.
    eexists. split; [reflexivity|]. apply is_bit_indicator.
  - (* eval_label = training_sample[eval_data_idx] *)
    intros e o vs o' [Ht _] H. split_rhs H. injection H as <- <-.
    eexists. split; [reflexivity|].
    destruct Ht as [Ht|(t & Ht & Hbits)]; [congruence|].
    eapply take_Forall; [|eassumption].
    assert (Some (VIntArr t) = Some (VIntArr a)) as [= ->] by congruence.
    assumption.
Qed.

(** C4.  After any number of statements of a run, whatever the libraries
    return and whether or not an exception has ended the run,
    [training_sample] and [eval_label] are either not yet bound or bound to
    an integer array all of whose entries are 0 or 1. *)
Theorem membership_stays_binary (w : World) (k : nat) :
  membership_binary (names (snd (after k w))).
Proof.
  unfold after. apply exec_all_preserves.
  - apply statements_keep_membership_binary.
  - split; now left.
Qed.

End Membership.

(** ** The calibration data of [In [74]] *)

Section Indicator.
Context {L : Library}.

Lemma len_array {X} (l : list X) : len (array l) = Ok (length l).
Proof. reflexivity. Qed.

Lemma indicator_length (n m : nat) :
  length (repeat 1%Z n ++ repeat 0%Z m) = n + m.
Proof. now rewrite length_app, !repeat_length. Qed.

Lemma indicator_one (n m i : nat) :
  i < n + m -> (nth_error (repeat 1%Z n ++ repeat 0%Z m) i = Some 1%Z <-> i < n).
Proof.
  intros Hi. destruct (Nat.lt_ge_cases i n) as [H|H].
  - rewrite nth_error_app1 by now rewrite repeat_length.
    rewrite nth_error_repeat by assumption. tauto.
  - rewrite nth_error_app2 by now rewrite repeat_length.
    rewrite repeat_length, nth_error_repeat by lia.
    split; [discriminate | lia].
Qed.

Lemma indicator_zero (n m i : nat) :
  i < n + m -> (nth_error (repeat 1%Z n ++ repeat 0%Z m) i = Some 0%Z <-> n <= i).
Proof.
  intros Hi. destruct (Nat.lt_ge_cases i n) as [H|H].
  - rewrite nth_error_app1 by now rewrite repeat_length.
    rewrite nth_error_repeat by assumption.
    split; [discriminate | lia].
  - rewrite nth_error_app2 by now rewrite repeat_length.
    rewrite repeat_length, nth_error_repeat by lia. tauto.
Qed.

(** C8.  Let [In [74]] run to its end in a namespace where [x_train] and
    [x_test] are arrays of [n] and [m] samples and [y_train] and [y_test]
    hold as many labels.  Then [x], [y] and [training_sample] all have
    length [n + m]; entry [i] of [training_sample] is 1 exactly when
    [i < n] and 0 exactly when [n <= i]; and sample [i] of [x] is sample [i]
    of [x_train] when [i < n] and sample [i - n] of [x_test] otherwise. *)
Theorem membership_indicator_correct
    (st : state) (xtr xte : ndarray float32) (ytr yte : ndarray Z)
    (n m : nat) :
  names st V.x_train = Some (VFloatArr xtr) ->
  names st V.x_test = Some (VFloatArr xte) ->
  names st V.y_train = Some (VIntArr ytr) ->
  names st V.y_test = Some (VIntArr yte) ->
  wf xtr ->
  len xtr = Ok n -> len xte = Ok m -> len ytr = Ok n -> len yte = Ok m ->
  fst (exec_all cell_74 st) = Ok tt ->
  exists xa ya ts,
    names (snd (exec_all cell_74 st)) V.x = Some (VFloatArr xa) /\
    names (snd (exec_all cell_74 st)) V.y = Some (VIntArr ya) /\
    names (snd (exec_all cell_74 st)) V.training_sample = Some (VIntArr ts) /\
    len ts = Ok (n + m) /\ len xa = Ok (n + m) /\ len ya = Ok (n + m) /\
    forall i, i < n + m ->
      (item ts [i] = Some 1%Z <-> i < n) /\
      (item ts [i] = Some 0%Z <-> n <= i) /\
      (i < n -> row xa i = row xtr i) /\
      (n <= i -> row xa i = row xte (i - n)).
Proof.
  destruct st as [e o]. cbn [names].
  intros Hxtr Hxte Hytr Hyte Hwf Hn Hm Hn' Hm'.
  destruct (exec_all cell_74 (State e o)) as [r st'] eqn:H. cbn [fst snd].
  intros ->. unfold_cells_in H. exec_known_in H; try discriminate H.
  injection H as <-.
  match goal with
  | Ex : concatenate [xtr; xte] = Ok ?xa,
    Ey : concatenate [ytr; yte] = Ok ?ya |- _ =>
      exists xa, ya; eexists;
      destruct (concatenate_two _ _ Ex) as (n1 & m1 & t1 & Ea1 & Eb1 & Ec1 & _);
      destruct (concatenate_two _ _ Ey) as (n2 & m2 & t2 & Ea2 & Eb2 & Ec2 & _);
      pose proof Ex as Hx
  end.
  rewrite (shape_len _ Ea1) in Hn. rewrite (shape_len _ Eb1) in Hm.
  rewrite (shape_len _ Ea2) in Hn'. rewrite (shape_len _ Eb2) in Hm'.
  injection Hn as ->. injection Hm as ->.
  injection Hn' as ->. injection Hm' as ->.
  cbn [names]. unfold bind_var. cbn [V.eqb].
  repeat match goal with |- _ /\ _ => split end; try reflexivity.
  - now rewrite len_array, indicator_length.
  - eapply shape_len; eassumption.
  - eapply shape_len; eassumption.
  - intros i Hi. rewrite !item_array.
    repeat match goal with |- _ /\ _ => split end.
    + now apply indicator_one.
    + now apply indicator_zero.
    + intros Hlt. eapply row_concatenate_left; eassumption.
    + intros Hge. eapply row_concatenate_right; eassumption.
Qed.

End Indicator.

(** ** The two calibrations *)

Section Calibration.
Context {L : Library}.
Local Open Scope string_scope.

(** C3 (amended).  A complete run makes exactly two calibration calls, one
    through each of the two entry points.  The supervised one is made on
    [mia_label_only] with [x_train[:1500]], [y_train[:1500]],
    [x_test[:1500]], [y_test[:1500]], each an initial segment of the split it
    is cut from.  The unsupervised one is made on
    [mia_label_only_unsupervised] with no array at all: its arguments are the
    five keyword scalars top_t=50, num_samples=500, max_queries=2,
    verbose=True, batch_size=256. *)
Theorem calibration_calls (w : World) :
  fst (run w) = Ok tt ->
  exists xtr ytr xte yte xm ym xn yn a1 a2,
    names (snd (run w)) V.x_train = Some (VFloatArr xtr) /\
    names (snd (run w)) V.y_train = Some (VIntArr ytr) /\
    names (snd (run w)) V.x_test = Some (VFloatArr xte) /\
    names (snd (run w)) V.y_test = Some (VIntArr yte) /\
    names (snd (run w)) V.mia_label_only = Some (VAttack a1) /\
    names (snd (run w)) V.mia_label_only_unsupervised = Some (VAttack a2) /\
    slice_to xtr 1500 = Ok xm /\ slice_to ytr 1500 = Ok ym /\
    slice_to xte 1500 = Ok xn /\ slice_to yte 1500 = Ok yn /\
    prefix (data xm) (data xtr) /\ prefix (data ym) (data ytr) /\
    prefix (data xn) (data xte) /\ prefix (data yn) (data yte) /\
    filter is_calibration_event (trace (out (snd (run w))))
    = [ ECalibrate V.mia_label_only a1 xm ym xn yn;
        ECalibrateUnsupervised V.mia_label_only_unsupervised a2
          unsupervised_kwargs ] /\
    unsupervised_kwargs
    = [ ("top_t", SInt 50); ("num_samples", SInt 500);
        ("max_queries", SInt 2); ("verbose", SBool true);
        ("batch_size", SInt 256) ].
Proof.
  destruct (run w) as [r st] eqn:H. cbn [fst snd]. intros Hr.
  run_cases H; try discriminate Hr.
  cbv [names out trace bind_var V.eqb].
  do 10 eexists.
  repeat match goal with |- _ /\ _ => split end.
  1-6: reflexivity.
  1-4: eassumption.
  1-4: (eapply slice_to_prefix; eassumption).
  - cbv [filter is_calibration_event is_calibrate kind_of]. reflexivity.
  - reflexivity.
Qed.

End Calibration.

(** ** The evaluation sample and the reported accuracies *)

Section Evaluation.
Context {L : Library}.

Lemma array_wf {X} (l : list X) : wf (array l).
Proof. unfold wf, array. cbn. lia. Qed.

Lemma take_vector {X} (a : ndarray X) (idx : ndarray Z) (r : ndarray X)
    (n k : nat) :
  wf a -> shape a = [n] -> wf idx -> shape idx = [k] ->
  take a idx = Ok r ->
  shape r = [k] /\ length (data r) = k.
Proof.
  intros Ha Sa Hi Si H. pose proof (take_wf Ha Hi H) as Hr.
  destruct (take_ok _ _ H) as (n' & t & ks & Sa' & _ & Sr & _).
  rewrite Sa in Sa'. injection Sa' as <- <-.
  rewrite Si in Sr. cbn [app] in Sr. split; [assumption|].
  unfold wf in Hr. rewrite Hr, Sr. cbn. lia.
Qed.

(** C5.  In a complete run two accuracies are printed after the base model
    accuracy.  The first is what [accuracy_score] returned on [eval_label]
    and the labels [infer] gave for the supervised attack, the second what it
    returned on [eval_label] and the labels [infer] gave for the unsupervised
    attack; both calls of [infer] were made on the same [x_eval] and
    [y_eval], and both scores are against the same [eval_label], which has
    500 entries.  With [accuracy_score] computing the fraction of agreeing
    samples, each printed value is the number of those 500 samples whose
    predicted membership equals [eval_label], divided by 500. *)
Theorem reported_accuracy (w : World) :
  choice_contract -> accuracy_contract ->
  fst (run w) = Ok tt ->
  exists xe ye el pl pu a1 a2 q1 q2 c t,
    names (snd (run w)) V.x_eval = Some (VFloatArr xe) /\
    names (snd (run w)) V.y_eval = Some (VIntArr ye) /\
    names (snd (run w)) V.eval_label = Some (VIntArr el) /\
    names (snd (run w)) V.pred_label = Some (VIntArr pl) /\
    names (snd (run w)) V.pred_label_unsupervised = Some (VIntArr pu) /\
    filter is_scoring_event (trace (out (snd (run w))))
    = [ EInfer V.mia_label_only a1 xe ye; EAccuracyScore el pl;
        EInfer V.mia_label_only_unsupervised a2 xe ye;
        EAccuracyScore el pu ] /\
    stdout (out (snd (run w)))
    = [ PBaseAccuracy c t; PAccuracy q1; PAccuracy q2 ] /\
    (exists u u', infer a1 xe ye u = (Returned pl, u')) /\
    (exists u u', accuracy_score el pl u = (Returned q1, u')) /\
    (exists u u', infer a2 xe ye u = (Returned pu, u')) /\
    (exists u u', accuracy_score el pu u = (Returned q2, u')) /\
    length (data el) = 500 /\
    Qeq q1 (Qmake (Z.of_nat (count_equal (data el) (data pl))) 500) /\
    Qeq q2 (Qmake (Z.of_nat (count_equal (data el) (data pu))) 500).
Proof.
  intros Hchoice Hacc.
  destruct (run w) as [r st] eqn:H. cbn [fst snd]. intros Hr.
  run_cases H; try discriminate Hr.
  match goal with
  | Ec : choice _ 500 _ = (Returned ?idx, _),
    Et : take (array ?l) ?idx = Ok ?el |- _ =>
      destruct (Hchoice _ _ _ _ _ Ec) as (Si & Wi & _);
      destruct (take_vector (array_wf l) eq_refl Wi Si Et) as [Sel Lel]
  end.
  cbv [names out trace stdout bind_var V.eqb].
  do 11 eexists.
  repeat match goal with |- _ /\ _ => split end.
  1-5: reflexivity.
  - cbv [filter is_scoring_event is_infer is_score kind_of orb]. reflexivity.
  - reflexivity.
  - eauto.
  - eauto.
  - eauto.
  - eauto.
  - assumption.
  - match goal with
    | Ea : accuracy_score ?el ?pl _ = (Returned ?q, _) |- Qeq ?q _ =>
        pose proof (Hacc _ _ _ _ _ Ea) as Hq
    end.
    unfold fraction_equal in Hq. rewrite Lel in Hq. apply Hq. lia.
  - match goal with
    | Ea : accuracy_score ?el ?pl _ = (Returned ?q, _) |- Qeq ?q _ =>
        pose proof (Hacc _ _ _ _ _ Ea) as Hq
    end.
    unfold fraction_equal in Hq. rewrite Lel in Hq. apply Hq. lia.
Qed.

End Evaluation.

(** ** Index safety of the evaluation sample *)

Section IndexSafety.
Context {L : Library}.

Lemma len_raises {X} (a : ndarray X) (e : exn) :
  len a = Raise e -> e = TypeError.
Proof. unfold len. destruct (shape a); [now intros [= <-] | discriminate]. Qed.

Lemma iter_raises {X} (a : ndarray X) (e : exn) :
  iter a = Raise e -> e = TypeError.
Proof. unfold iter. destruct (shape a); [now intros [= <-] | discriminate]. Qed.

Lemma from_lib_raises {X} (r : outcome X) (e : exn) :
  from_lib r = Raise e -> exists c, e = LibraryError c.
Proof. destruct r; simpl; [discriminate | intros [= <-]; eauto]. Qed.

Lemma rmap_lib_raises {X Y} (f : X -> outcome Y) (l : list X) (e : exn) :
  rmap (fun a => from_lib (f a)) l = Raise e -> exists c, e = LibraryError c.
Proof.
  induction l as [|a l IH]; simpl; [discriminate|].
  destruct (f a) as [b|c]; simpl; [|intros [= <-]; eauto].
  destruct (rmap _ l); simpl; [discriminate | assumption].
Qed.

Lemma reshape_images_facts (a : ndarray Z) (r : ndarray float32) (n : nat) :
  reshape_images a = Ok r -> shape a = [n; 28; 28] -> wf a ->
  shape r = [n; 1; 28; 28] /\ wf r.
Proof.
  intros H S W. split; [|eapply reshape_images_wf; eassumption].
  destruct (reshape_images_shape a H) as (k & t & Sa & Sr & _).
  rewrite S in Sa. injection Sa as <- <-. exact Sr.
Qed.

Lemma concatenate_facts {X} (a b c : ndarray X) (n m : nat) (t : list nat) :
  concatenate [a; b] = Ok c -> shape a = n :: t -> shape b = m :: t ->
  wf a -> wf b ->
  shape c = (n + m) :: t /\ wf c.
Proof.
  intros H Sa Sb Wa Wb. split; [|exact (concatenate_wf Wa Wb H)].
  destruct (concatenate_two _ _ H) as (n' & m' & t' & Sa' & Sb' & Sc & _).
  rewrite Sa in Sa'. rewrite Sb in Sb'. rewrite Sc. congruence.
Qed.

Lemma take_facts {X} (a : ndarray X) (idx : ndarray Z) (r : ndarray X)
    (n k : nat) (t : list nat) :
  take a idx = Ok r -> shape a = n :: t -> wf a ->
  shape idx = [k] -> wf idx ->
  shape r = k :: t /\ wf r.
Proof.
  intros H Sa Wa Si Wi. split; [|exact (take_wf Wa Wi H)].
  destruct (take_ok _ _ H) as (n' & t' & ks & Sa' & _ & Sr & _).
  rewrite Sa in Sa'. injection Sa' as <- <-. now rewrite Si in Sr.
Qed.

Lemma wf_vector {X} (a : ndarray X) (k : nat) :
  shape a = [k] -> wf a -> length (data a) = k.
Proof. unfold wf. intros ->. cbn. lia. Qed.

Lemma in_range_positive (k : nat) (idx : ndarray Z) (s : nat) :
  shape idx = [S s] -> wf idx -> Forall (in_range k) (data idx) -> 0 < k.
Proof.
  intros Si Wi F. pose proof (wf_vector Si Wi) as Hl.
  destruct (data idx) as [|i l]; [discriminate Hl|].
  inversion F as [|? ? Hi _]. unfold in_range in Hi. lia.
Qed.

End IndexSafety.

(** What the contracts say about the values a run has met so far; every
    equation is used once and dropped. *)
Ltac learn_shapes Hload Hchoice Hinfer :=
  repeat match goal with
         | E : load_mnist true _ = (Returned _, _) |- _ =>
             destruct (Hload _ _ _ _ _ _ _ _ E)
               as (?n & ?m & ? & ? & ? & ? & ? & ? & ? & ?);
             clear E
         | E : reshape_images ?a = Ok _, S : shape ?a = [_; 28; 28],
           W : wf ?a |- _ =>
             destruct (@reshape_images_facts _ _ _ _ E S W); clear E
         | E : concatenate [?a; ?b] = Ok _, Sa : shape ?a = _ :: ?t,
           Sb : shape ?b = _ :: ?t, Wa : wf ?a, Wb : wf ?b |- _ =>
             destruct (@concatenate_facts _ _ _ _ _ _ _ E Sa Sb Wa Wb);
             clear E
         | E : len ?a = Ok ?k, S : shape ?a = _ :: _ |- _ =>
             rewrite (@shape_len _ _ _ _ S) in E; injection E as E; subst k
         | E : choice _ 500 _ = (Returned _, _) |- _ =>
             destruct (Hchoice _ _ _ _ _ E) as (? & ? & ?); clear E
         | E : take ?a ?idx = Ok _, Sa : shape ?a = _ :: _, Wa : wf ?a,
           Si : shape ?idx = [_], Wi : wf ?idx |- _ =>
             destruct (@take_facts _ _ _ _ _ _ _ E Sa Wa Si Wi); clear E
         | E : take (array ?l) ?idx = Ok _,
           Si : shape ?idx = [_], Wi : wf ?idx |- _ =>
             destruct (@take_facts _ _ _ _ _ _ _ E
                         (eq_refl : shape (array l) = [length l])
                         (@array_wf _ l) Si Wi);
             clear E
         | E : infer _ ?xs _ _ = (Returned _, _),
           S : shape ?xs = _ :: _ |- _ =>
             destruct (Hinfer _ _ _ _ _ _ _ E (@shape_len _ _ _ _ S));
             clear E
         end.

(** An exception of the notebook's own array code that is not an
    [IndexError], or cannot have been raised at all. *)
Ltac not_index_error :=
  let Hr := fresh "Hr" in
  intros Hr;
  first
    [ discriminate Hr
    | injection Hr as Hr; subst;
      match goal with
      | E : reshape_images _ = Raise _ |- _ =>
          apply reshape_images_raises in E; discriminate E
      | E : len _ = Raise _ |- _ => apply len_raises in E; discriminate E
      | E : iter _ = Raise _ |- _ => apply iter_raises in E; discriminate E
      | E : concatenate [_; _] = Raise _ |- _ =>
          apply concatenate_two_raises in E; discriminate E
      | E : rmap _ _ = Raise _ |- _ =>
          apply rmap_lib_raises in E as [? E]; discriminate E
      | E : from_lib _ = Raise _ |- _ =>
          apply from_lib_raises in E as [? E]; discriminate E
      | E : slice_to ?a _ = Raise _, S : shape ?a = _ :: _ |- _ =>
          apply slice_to_raises in E; rewrite E in S; discriminate S
      | E : take ?a ?idx = Raise _, S : shape ?a = ?n :: _,
        F : Forall (in_range ?n) (data ?idx) |- _ =>
          destruct (@take_defined _ a idx _ _ S F) as [? Hd];
          rewrite Hd in E; discriminate E
      | E : take (array (repeat 1%Z ?n ++ repeat 0%Z ?m)) ?idx = Raise _,
        F : Forall (in_range (?n + ?m)) (data ?idx) |- _ =>
          rewrite <- (indicator_length n m) in F;
          destruct (@take_defined _ (array _) idx _ _ eq_refl F) as [? Hd];
          rewrite Hd in E; discriminate E
      end ].

Section IndexSafetyOfRun.
Context {L : Library}.
Local Open Scope string_scope.

Lemma take_len {X} (a : ndarray X) (idx : ndarray Z) (r : ndarray X)
    (k : nat) :
  take a idx = Ok r -> shape idx = [k] -> len r = Ok k.
Proof.
  intros H Si. destruct (take_ok _ _ H) as (n & t & ks & _ & _ & Sr & _).
  rewrite Si in Sr. exact (shape_len _ Sr).
Qed.

(** [In [76]] on its own: from a namespace in which [x], [y] and
    [training_sample] have the same length, once the import has succeeded
    and [choice] has returned its draws, every statement of the cell
    completes. *)
Lemma sampling_completes
    (st : state) (xa : ndarray float32) (ya ts idx : ndarray Z)
    (k : nat) (u : unit) (w1 w2 : World) :
  choice_contract ->
  names st V.x = Some (VFloatArr xa) ->
  names st V.y = Some (VIntArr ya) ->
  names st V.training_sample = Some (VIntArr ts) ->
  len xa = Ok k -> len ya = Ok k -> len ts = Ok k ->
  import_module "numpy.random" ["choice"] (world (out st)) = (Returned u, w1) ->
  choice k 500 w1 = (Returned idx, w2) ->
  exists xe ye el,
    (0 < k /\ shape idx = [500] /\ Forall (in_range k) (data idx)) /\
    (take xa idx = Ok xe /\ take ya idx = Ok ye /\ take ts idx = Ok el) /\
    (len xe = Ok 500 /\ len ye = Ok 500 /\ len el = Ok 500) /\
    fst (exec_all cell_76 st) = Ok tt /\
    names (snd (exec_all cell_76 st)) V.eval_data_idx = Some (VIntArr idx) /\
    names (snd (exec_all cell_76 st)) V.x_eval = Some (VFloatArr xe) /\
    names (snd (exec_all cell_76 st)) V.y_eval = Some (VIntArr ye) /\
    names (snd (exec_all cell_76 st)) V.eval_label = Some (VIntArr el).
Proof.
  intros Hchoice Hx Hy Ht Lx Ly Lt Himp Hch.
  destruct (Hchoice _ _ _ _ _ Hch) as (Si & Wi & Fi).
  destruct (len_shape _ Lx) as [tx Sx].
  destruct (len_shape _ Ly) as [ty Sy].
  destruct (len_shape _ Lt) as [tt' St].
  destruct (take_defined xa idx Sx Fi) as [xe Ex].
  destruct (take_defined ya idx Sy Fi) as [ye Ey].
  destruct (take_defined ts idx St Fi) as [el Et].
  exists xe, ye, el.
  split; [repeat split; try assumption;
          exact (@in_range_positive k idx 499 Si Wi Fi)|].
  split; [repeat split; assumption|].
  split; [repeat split; eapply take_len; eassumption|].
  destruct st as [e [wo tr rs pr]]. cbn [names out world] in *.
  destruct (exec_all cell_76 _) as [r st'] eqn:H.
  unfold_cells_in H.
  exec_with ltac:(fun H' => progress (known_in H'; known_calls_in H'))
            ltac:(idtac) H.
  injection H as <- <-. cbn [fst snd names].
  unfold bind_var. cbn [V.eqb]. repeat split.
Qed.

(** C9.  Let [load_mnist] give images of shape (N, 28, 28) with N labels,
    [choice(a, size)] give [size] draws from [range(a)], and [infer] give one
    label per sample.

    The construction itself: [In [76]], run in any namespace where [x], [y]
    and [training_sample] have the same length, completes as soon as the
    import succeeds and [choice] returns.  Then [x] is not empty, every one
    of the 500 indices lies in [0, len(x)), the three indexings are defined,
    and [x_eval], [y_eval] and [eval_label] are bound to their results, each
    of length 500.

    In a run: no run ends in an [IndexError] of the notebook's own indexing
    or slicing.  Whenever [eval_data_idx] is bound, [x] is non-empty, there
    are 500 indices, and every one of them lies in [0, len(x)); whenever
    [x_eval], [y_eval] or [eval_label] is bound it has length 500; and the
    two arguments of every call of [accuracy_score] have 500 entries each.
    A run that completes has bound all of them, and has called
    [accuracy_score] exactly twice, each time on [eval_label] and 500
    predicted labels. *)
Theorem evaluation_sample_index_safe (w : World) :
  loader_contract -> choice_contract -> infer_contract ->
  (forall (st : state) (xa : ndarray float32) (ya ts idx : ndarray Z)
          (k : nat) (w1 w2 : World),
     names st V.x = Some (VFloatArr xa) ->
     names st V.y = Some (VIntArr ya) ->
     names st V.training_sample = Some (VIntArr ts) ->
     len xa = Ok k -> len ya = Ok k -> len ts = Ok k ->
     import_module "numpy.random" ["choice"] (world (out st))
     = (Returned tt, w1) ->
     choice k 500 w1 = (Returned idx, w2) ->
     exists xe ye el,
       (0 < k /\ shape idx = [500] /\ Forall (in_range k) (data idx)) /\
       (take xa idx = Ok xe /\ take ya idx = Ok ye /\ take ts idx = Ok el) /\
       (len xe = Ok 500 /\ len ye = Ok 500 /\ len el = Ok 500) /\
       fst (exec_all cell_76 st) = Ok tt /\
       names (snd (exec_all cell_76 st)) V.eval_data_idx
       = Some (VIntArr idx) /\
       names (snd (exec_all cell_76 st)) V.x_eval = Some (VFloatArr xe) /\
       names (snd (exec_all cell_76 st)) V.y_eval = Some (VIntArr ye) /\
       names (snd (exec_all cell_76 st)) V.eval_label = Some (VIntArr el)) /\
  fst (run w) <> Raise IndexError /\
  (forall idx xa,
     names (snd (run w)) V.eval_data_idx = Some (VIntArr idx) ->
     names (snd (run w)) V.x = Some (VFloatArr xa) ->
     exists k, len xa = Ok k /\ 0 < k /\
               shape idx = [500] /\ Forall (in_range k) (data idx)) /\
  (forall v, names (snd (run w)) V.x_eval = Some v ->
     exists xe, v = VFloatArr xe /\ len xe = Ok 500) /\
  (forall v, names (snd (run w)) V.y_eval = Some v ->
     exists ye, v = VIntArr ye /\ len ye = Ok 500 /\
                length (data ye) = 500) /\
  (forall v, names (snd (run w)) V.eval_label = Some v ->
     exists el, v = VIntArr el /\ len el = Ok 500 /\
                length (data el) = 500) /\
  (forall yt yp,
     In (EAccuracyScore yt yp) (trace (out (snd (run w)))) ->
     length (data yt) = 500 /\ length (data yp) = 500) /\
  (fst (run w) = Ok tt ->
   exists xa idx xe ye el pl pu k,
     (names (snd (run w)) V.x = Some (VFloatArr xa) /\
      names (snd (run w)) V.eval_data_idx = Some (VIntArr idx) /\
      names (snd (run w)) V.x_eval = Some (VFloatArr xe) /\
      names (snd (run w)) V.y_eval = Some (VIntArr ye) /\
      names (snd (run w)) V.eval_label = Some (VIntArr el)) /\
     (len xa = Ok k /\ 0 < k /\
      shape idx = [500] /\ Forall (in_range k) (data idx)) /\
     (len xe = Ok 500 /\ len ye = Ok 500 /\ len el = Ok 500) /\
     filter is_accuracy_event (trace (out (snd (run w))))
     = [EAccuracyScore el pl; EAccuracyScore el pu] /\
     length (data el) = 500 /\ length (data pl) = 500 /\
     length (data pu) = 500).
Proof.
  intros Hload Hchoice Hinfer.
  split; [intros; eapply sampling_completes; eassumption|].
  destruct (run w) as [r st] eqn:H. cbn [fst snd].
  run_cases_with ltac:(learn_shapes Hload Hchoice Hinfer) H.
  all: split; [not_index_error|].
  all: cbv [names out trace bind_var V.eqb].
  all: repeat match goal with |- _ /\ _ => split end.
  all: try (intros idx xa Hi Hx;
            first
              [ discriminate Hi
              | injection Hi as <-; injection Hx as <-;
                eexists; repeat split;
                [ eapply shape_len; eassumption
                | match goal with
                  | F : Forall (in_range ?k) (data ?i), S : shape ?i = [500],
                    W : wf ?i |- 0 < ?k =>
                      exact (@in_range_positive k i 499 S W F)
                  end
                | assumption
                | assumption ] ]).
  all: try (intros v Hv;
            first
              [ discriminate Hv
              | injection Hv as <-; eexists;
                repeat split;
                first [ eapply shape_len; eassumption
                      | eapply wf_vector; eassumption ] ]).
  all: try (intros yt yp Hin; cbn [In] in Hin;
            repeat match goal with
                   | Hd : _ \/ _ |- _ => destruct Hd as [Hd|Hd]
                   end;
            first
              [ contradiction
              | discriminate
              | match goal with
                | He : _ = EAccuracyScore _ _ |- _ =>
                    first [ discriminate He
                          | injection He as <- <-;
                            split; eapply wf_vector; eassumption ]
                end ]).
  all: intros Hr; try discriminate Hr.
  do 8 eexists.
  split; [repeat split|].
  split.
  { split; [eapply shape_len; eassumption|].
    split; [|split; assumption].
    match goal with
    | F : Forall (in_range ?k) (data ?i), S : shape ?i = [500],
      W : wf ?i |- 0 < ?k =>
        exact (@in_range_positive k i 499 S W F)
    end. }
  split; [repeat split; eapply shape_len; eassumption|].
  split; [cbv [filter is_accuracy_event is_score kind_of]; reflexivity|].
  repeat split; eapply wf_vector; eassumption.
Qed.

End IndexSafetyOfRun.

(** ** The small library at work *)

Module ToyFacts.

Lemma loader_ok : @loader_contract Toy.library.
Proof.
  intros w xtr ytr xte yte lo hi w'.
  change (@load_mnist Toy.library true w)
    with (Toy.tick (Toy.train_images, Toy.train_labels,
                    (Toy.test_images, Toy.test_labels), 0%Z, 255%Z) w).
  unfold Toy.tick. destruct w; [discriminate|].
  intros H. injection H as <- <- <- <- _ _ _.
  exists 2, 1. repeat split; vm_compute; reflexivity.
Qed.

Lemma choice_ok : @choice_contract Toy.library.
Proof.
  intros a size w idx w'.
  change (@choice Toy.library a size w)
    with (match Toy.pick a size with
          | Returned i => Toy.tick i w
          | Failed c => (Failed c, w)
          end).
  unfold Toy.pick, Toy.tick. destruct a as [|a]; [discriminate|].
  destruct w; [discriminate|]. intros H. injection H as <- _.
  unfold array. cbn [shape data]. rewrite length_map, length_seq.
  repeat split.
  - unfold wf. cbn [shape data size_of fold_right].
    rewrite length_map, length_seq. lia.
  - apply Forall_forall. intros z Hz. apply in_map_iff in Hz as (i & <- & _).
    unfold in_range.
    pose proof (Nat.mod_upper_bound (7 * i + 1) (S a)). lia.
Qed.

Lemma infer_ok : @infer_contract Toy.library.
Proof.
  intros t xs ys w p w' k.
  change (@infer Toy.library t xs ys w)
    with (Toy.tick (array (repeat 1%Z (hd 0 (shape xs)))) w).
  unfold Toy.tick. destruct w; [discriminate|].
  intros H Hk. injection H as <- _.
  apply len_shape in Hk as [tl Hk].
  change (@float32 Toy.library) with Z in Hk. rewrite Hk. cbn [hd].
  split; [|apply array_wf].
  unfold array. cbn [shape]. now rewrite repeat_length.
Qed.

Lemma accuracy_ok : @accuracy_contract Toy.library.
Proof.
  intros yt yp w q w'.
  change (@accuracy_score Toy.library yt yp w)
    with (match Toy.score yt yp with
          | Returned s => Toy.tick s w
          | Failed c => (Failed c, w)
          end).
  unfold Toy.score, Toy.tick.
  destruct (Toy.same_shape _ _); [|discriminate].
  destruct w; [discriminate|]. intros H _. injection H as <- _.
  apply Qeq_refl.
Qed.

Lemma calm_completes : fst (@run Toy.library Toy.calm) = Ok tt.
Proof. vm_compute. reflexivity. Qed.

End ToyFacts.

(** ** Concrete runs *)

Section ConcreteRuns.
Local Open Scope string_scope.

Lemma attack_runs_twice_witness :
  fst (@run Toy.library Toy.calm) = Ok tt /\
  count is_instantiate (kinds (snd (@run Toy.library Toy.calm))) = 2 /\
  count is_infer (kinds (snd (@run Toy.library Toy.calm))) = 2.
Proof.
  split; [exact ToyFacts.calm_completes|].
  destruct (@attack_runs_twice Toy.library Toy.calm) as [_ H].
  destruct (H ToyFacts.calm_completes) as (_ & H2 & _ & _ & H5 & _).
  split; assumption.
Defined.

(** In the run of the small library two attack objects are built and
    [infer] is called twice, not once. *)
Lemma single_attack_refuted :
  ~ (count is_instantiate (kinds (snd (@run Toy.library Toy.calm))) = 1 /\
     count is_infer (kinds (snd (@run Toy.library Toy.calm))) = 1).
Proof. intros [H _]. vm_compute in H. discriminate H. Qed.

Lemma pipeline_order_witness :
  fst (@run Toy.library Toy.calm) = Ok tt /\
  stages (kinds (snd (@run Toy.library Toy.calm))) = pipeline /\
  stdout (out (snd (@run Toy.library Toy.calm)))
  = lines (trace (out (snd (@run Toy.library Toy.calm)))) /\
  count is_print_accuracy (kinds (snd (@run Toy.library Toy.calm))) = 2.
Proof.
  split; [exact ToyFacts.calm_completes|].
  destruct (@pipeline_order Toy.library Toy.calm)
    as (_ & _ & H & _ & Hout & _).
  destruct (H ToyFacts.calm_completes) as [Hks Hst].
  split; [exact Hst|]. split; [exact Hout|].
  rewrite Hks. reflexivity.
Defined.

(** In the run of the small library the listed steps are not gone through
    once: the stages of the run are not those of a single pass, and the
    second attack object is instantiated after the first accuracy has been
    reported. *)
Lemma single_pass_refuted :
  ~ (stages (kinds (snd (@run Toy.library Toy.calm)))
     = [LoadData; LoadModel; LoadModel; LoadModel; Wrap;
        Instantiate; Calibrate; Infer; Score; Report]) /\
  ~ (forall i j,
       nth_error (stages (kinds (snd (@run Toy.library Toy.calm)))) i
       = Some Report ->
       nth_error (stages (kinds (snd (@run Toy.library Toy.calm)))) j
       = Some Instantiate ->
       j < i).
Proof.
  assert (E : stages (kinds (snd (@run Toy.library Toy.calm))) = pipeline)
    by (vm_compute; reflexivity).
  rewrite E. split.
  - discriminate.
  - intros H. specialize (H 9 10 eq_refl eq_refl). lia.
Qed.

Lemma calibration_calls_witness :
  fst (@run Toy.library Toy.calm) = Ok tt /\
  length (filter is_calibration_event
            (trace (out (snd (@run Toy.library Toy.calm))))) = 2.
Proof.
  split; [exact ToyFacts.calm_completes|].
  destruct (@calibration_calls Toy.library Toy.calm ToyFacts.calm_completes)
    as (xtr & ytr & xte & yte & xm & ym & xn & yn & a1 & a2 & H).
  destruct H as (_ & _ & _ & _ & _ & _ & _ & _ & _ & _ & _ & _ & _ & _ & Hf & _).
  rewrite Hf. reflexivity.
Defined.

(** In the run of the small library the unsupervised calibration is also
    given [verbose]: its keywords are not only top_t, num_samples,
    max_queries and batch_size. *)
Lemma unsupervised_arguments_refuted :
  ~ (forall recv a kw,
       In (ECalibrateUnsupervised recv a kw)
          (trace (out (snd (@run Toy.library Toy.calm)))) ->
       map fst kw = ["top_t"; "num_samples"; "max_queries"; "batch_size"]).
Proof.
  intros H.
  assert (Hn : nth_error (trace (out (snd (@run Toy.library Toy.calm)))) 27
               = Some (ECalibrateUnsupervised V.mia_label_only_unsupervised
                         (76 : @Attack Toy.library) unsupervised_kwargs))
    by (vm_compute; reflexivity).
  apply nth_error_In in Hn. apply H in Hn. discriminate Hn.
Qed.

Lemma reported_accuracy_witness :
  fst (@run Toy.library Toy.calm) = Ok tt /\
  exists q1 q2 c t,
    stdout (out (snd (@run Toy.library Toy.calm)))
    = [PBaseAccuracy c t; PAccuracy q1; PAccuracy q2].
Proof.
  split; [exact ToyFacts.calm_completes|].
  destruct (@reported_accuracy Toy.library Toy.calm
              ToyFacts.choice_ok ToyFacts.accuracy_ok ToyFacts.calm_completes)
    as (xe & ye & el & pl & pu & a1 & a2 & q1 & q2 & c & t & H).
  destruct H as (_ & _ & _ & _ & _ & _ & Hs & _).
  exists q1, q2, c, t. exact Hs.
Defined.

Lemma exceptions_propagate_witness :
  fst (@after Toy.library 5 5) = Ok tt /\
  fst (@run Toy.library 5) = Raise (LibraryError 0) /\
  @after Toy.library 9 5 = @run Toy.library 5.
Proof.
  split; [vm_compute; reflexivity|].
  destruct (@exceptions_propagate Toy.library 5) as (_ & _ & H).
  destruct (H 5 Toy.failing_statement (LibraryError 0))
    as (Hrun & _ & Hstop & _).
  - vm_compute. reflexivity.
  - vm_compute. reflexivity.
  - vm_compute. reflexivity.
  - split; [now rewrite Hrun|]. rewrite Hrun. apply Hstop. lia.
Defined.

Lemma membership_indicator_correct_witness :
  fst (@exec_all Toy.library cell_74 Toy.before_74) = Ok tt /\
  exists ts,
    names (snd (@exec_all Toy.library cell_74 Toy.before_74))
      V.training_sample = Some (VIntArr ts) /\
    item ts [0] = Some 1%Z /\ item ts [2] = Some 0%Z.
Proof.
  split; [vm_compute; reflexivity|].
  destruct (@membership_indicator_correct Toy.library Toy.before_74
              (NdArray [2; 1; 1; 1] [10; 20]%Z) (NdArray [1; 1; 1; 1] [30%Z])
              (NdArray [2] [3; 5]%Z) (NdArray [1] [7%Z]) 2 1)
    as (xa & ya & ts & _ & _ & Hts & _ & _ & _ & Hi);
    try reflexivity.
  exists ts. split; [exact Hts|].
  split; [apply (Hi 0); lia | apply (Hi 2); lia].
Defined.

Lemma evaluation_sample_index_safe_witness :
  @loader_contract Toy.library /\ @choice_contract Toy.library /\
  @infer_contract Toy.library /\
  fst (@run Toy.library Toy.calm) = Ok tt /\
  (exists xe ye el,
     names (snd (@run Toy.library Toy.calm)) V.x_eval = Some (VFloatArr xe) /\
     names (snd (@run Toy.library Toy.calm)) V.y_eval = Some (VIntArr ye) /\
     names (snd (@run Toy.library Toy.calm)) V.eval_label = Some (VIntArr el) /\
     len xe = Ok 500 /\ len ye = Ok 500 /\ len el = Ok 500) /\
  fst (@exec_all Toy.library cell_76 Toy.before_76) = Ok tt /\
  (exists el,
     names (snd (@exec_all Toy.library cell_76 Toy.before_76)) V.eval_label
     = Some (VIntArr el) /\
     len el = Ok 500).
Proof.
  split; [exact ToyFacts.loader_ok|].
  split; [exact ToyFacts.choice_ok|].
  split; [exact ToyFacts.infer_ok|].
  split; [exact ToyFacts.calm_completes|].
  destruct (@evaluation_sample_index_safe Toy.library Toy.calm
              ToyFacts.loader_ok ToyFacts.choice_ok ToyFacts.infer_ok)
    as (Hcell & _ & _ & _ & _ & _ & _ & Hrun).
  split.
  - destruct (Hrun ToyFacts.calm_completes)
      as (xa & idx & xe & ye & el & pl & pu & k & Hn & _ & Hl & _).
    destruct Hn as (_ & _ & Hxe & Hye & Hel).
    exists xe, ye, el.
    split; [exact Hxe|]. split; [exact Hye|]. split; [exact Hel|].
    exact Hl.
  - destruct (Hcell Toy.before_76
                (NdArray [3; 1; 1; 1] [10; 20; 30]%Z : ndarray (@float32 Toy.library))
                (NdArray [3] [3; 5; 7]%Z) (NdArray [3] [1; 1; 0]%Z)
                (array (map (fun i => Z.of_nat ((7 * i + 1) mod 3)) (seq 0 500)))
                3 99 98)
      as (xe & ye & el & _ & _ & (_ & _ & Hl) & Hok & _ & _ & _ & Hel);
      try (vm_compute; reflexivity).
    split; [exact Hok|]. exists el. split; [exact Hel | exact Hl].
Defined.

Lemma reshape_images_preserves_data_witness :
  shape Toy.train_images = [2; 28; 28] /\
  exists r,
    @reshape_images Toy.library Toy.train_images = Ok r /\
    shape r = [2; 1; 28; 28].
Proof.
  split; [reflexivity|].
  destruct (@reshape_images_preserves_data Toy.library 2 Toy.train_images
              eq_refl)
    as (r & H1 & H2 & _).
  exists r. split; assumption.
Defined.

End ConcreteRuns.

(** * Further properties of the notebook *)

(** ** Names that are bound once *)

Section Frame.
Context {L : Library}.

Lemma rebinds_false (v : V.var) (s : stmt) :
  rebinds v s = false -> ~ In v (targets s).
Proof.
  unfold rebinds. intros H Hin.
  assert (Ht : existsb (V.eqb v) (targets s) = true).
  { apply existsb_exists. exists v. split; [assumption|].
    now destruct (var_eqb_spec v v). }
  congruence.
Qed.

Lemma exec_other (s : stmt) (st : state) (v : V.var) :
  rebinds v s = false -> names (snd (exec s st)) v = names st v.
Proof.
  intros H. apply rebinds_false in H. destruct s as [ts rhs|rhs].
  - eapply exec_assign_other; [exact H | apply surjective_pairing].
  - erewrite exec_expr_names; [reflexivity | apply surjective_pairing].
Qed.

Lemma exec_all_other (ss : list stmt) (v : V.var) :
  forallb (fun s => negb (rebinds v s)) ss = true ->
  forall st, names (snd (exec_all ss st)) v = names st v.
Proof.
  induction ss as [|s ss IH]; intros H st; [reflexivity|].
  cbn [forallb] in H. apply andb_prop in H as [Hs Hss].
  apply negb_true_iff in Hs. rewrite exec_all_cons.
  pose proof (exec_other s st v Hs) as Hv.
  destruct (exec s st) as [[[]|e] st1]; cbn [snd] in *.
  - now rewrite IH.
  - assumption.
Qed.

Lemma forallb_firstn {X} (p : X -> bool) (l : list X) (k : nat) :
  forallb p l = true -> forallb p (firstn k l) = true.
Proof.
  revert k. induction l as [|a l IH]; intros [|k] H; try reflexivity.
  cbn [forallb firstn] in *. apply andb_prop in H as [Ha Hl].
  now rewrite Ha, IH.
Qed.

Lemma firstn_add {X} (l : list X) (k j : nat) :
  firstn (k + j) l = firstn k l ++ firstn j (skipn k l).
Proof.
  revert l. induction k as [|k IH]; intros [|a l]; cbn; try reflexivity.
  - now destruct j.
  - now rewrite IH.
Qed.

(** A name that no statement after the first [k] binds keeps, for the rest
    of the run, the value it has after [k] statements. *)
Lemma after_other (w : World) (k j : nat) (v : V.var) :
  forallb (fun s => negb (rebinds v s)) (skipn k statements) = true ->
  names (snd (after (k + j) w)) v = names (snd (after k w)) v.
Proof.
  intros H. unfold after. rewrite firstn_add, exec_all_app.
  destruct (exec_all (firstn k statements) (fresh w)) as [[[]|e] st];
    cbn [snd]; [|reflexivity].
  apply exec_all_other. now apply forallb_firstn.
Qed.

(** Once [In [62]] has run, the two splits, their labels and the clip bounds
    are never bound again: whatever happens later, and however many more
    statements run, they hold what they held at the end of that cell.  In
    the same way the merged data, the membership indicator, the drawn
    indices and the evaluation sample are never bound again after
    [In [76]]; both attacks are evaluated on the very same sample. *)
Theorem data_is_bound_once (w : World) (j : nat) :
  Forall (fun v => names (snd (after (after_loading + j) w)) v
                   = names (snd (after after_loading w)) v)
         [V.x_train; V.y_train; V.x_test; V.y_test; V._min; V._max] /\
  Forall (fun v => names (snd (after (after_sampling + j) w)) v
                   = names (snd (after after_sampling w)) v)
         [V.x; V.y; V.training_sample; V.attack_train_size;
          V.attack_test_size; V.n; V.eval_data_idx;
          V.x_eval; V.y_eval; V.eval_label].
Proof.
  split; repeat (apply Forall_cons; [apply after_other; reflexivity|]);
    apply Forall_nil.
Qed.

End Frame.

(** ** Cells run too early *)

Section Unbound.
Context {L : Library}.

(** A cell that starts by reading a name that is not bound raises
    [NameError] and does nothing else: no library is called, nothing is
    printed, and the namespace is untouched.  This is what running the
    calibration, inference or scoring cells before the cells that build the
    attack object, the classifier or the evaluation sample gives. *)
Theorem unbound_name_stops_cell (st : state) :
  (names st V.mia_label_only = None ->
   exec_all cell_75 st = (Raise NameError, st) /\
   exec_all cell_77 st = (Raise NameError, st)) /\
  (names st V.mia_label_only_unsupervised = None ->
   exec_all cell_81 st = (Raise NameError, st) /\
   exec_all cell_82 st = (Raise NameError, st)) /\
  (names st V.art_model = None ->
   exec_all cell_80 st = (Raise NameError, st)) /\
  (names st V.eval_label = None ->
   exec_all cell_83 st = (Raise NameError, st)).
Proof.
  destruct st as [e [u tr rs pr]]. cbn [names].
  split; [|split; [|split]]; intros H; try split;
    cbv [cell_75 cell_77 cell_80 cell_81 cell_82 cell_83 exec_all exec
         bind lookup get_attack get_classifier get_int_arr names out];
    rewrite H; reflexivity.
Qed.

End Unbound.

(** ** Running [In [74]] again *)

(** Case analysis on a name whose binding is not known. *)
Ltac lookup_cases H :=
  first
    [ progress known_in H
    | match type of H with
      | context [match ?X with Some _ => _ | None => _ end] =>
          lazymatch type of X with
          | option value =>
              lazymatch X with
              | context [match _ with _ => _ end] => fail
              | _ => let E := fresh "E" in destruct X as [[]|] eqn:E
              end
          end
      end;
      reduce_in H; try discriminate H ].

Section RunAgain.
Context {L : Library}.

(** [In [74]] only computes on arrays: when it completes it has called no
    library and printed nothing, and running it a second time completes too
    and leaves every name bound to what the first run bound it to. *)
Theorem calibration_data_cell_idempotent (st : state) :
  fst (exec_all cell_74 st) = Ok tt ->
  out (snd (exec_all cell_74 st)) = out st /\
  fst (exec_all cell_74 (snd (exec_all cell_74 st))) = Ok tt /\
  out (snd (exec_all cell_74 (snd (exec_all cell_74 st)))) = out st /\
  same_names (names (snd (exec_all cell_74 (snd (exec_all cell_74 st)))))
             (names (snd (exec_all cell_74 st))).
Proof.
  destruct st as [e o].
  destruct (exec_all cell_74 (State e o)) as [r st1] eqn:H1.
  cbn [fst snd]. intros ->.
  unfold_cells_in H1.
  exec_with ltac:(fun H' => lookup_cases H') ltac:(idtac) H1;
    try discriminate H1.
  injection H1 as <-.
  destruct (exec_all cell_74 _) as [r2 st2] eqn:H2.
  unfold_cells_in H2. exec_known_in H2; try discriminate H2.
  injection H2 as <- <-. cbn [fst snd names out].
  repeat split. intros v. unfold bind_var. destruct v; reflexivity.
Qed.

End RunAgain.

(** ** Rows of an indexed array *)

Section RowFacts.
Context {A : Type}.
Implicit Types a r : ndarray A.

Lemma rmap_in_range (n : nat) (l : list Z) :
  Forall (in_range n) l ->
  rmap (norm_index n) l = Ok (map Z.to_nat l).
Proof.
  induction 1 as [|z l Hz _ IH]; [reflexivity|].
  cbn [rmap map]. destruct (norm_index_in_range Hz) as [-> _].
  cbn [rbind]. now rewrite IH.
Qed.

(** Equal chunks laid end to end: the [j]-th chunk is found at [j * size]. *)
Lemma chunk_of_flat_map {X} (f : X -> list A) (size : nat) (ks : list X) :
  (forall k, In k ks -> length (f k) = size) ->
  forall j k, nth_error ks j = Some k ->
  firstn size (skipn (j * size) (flat_map f ks)) = f k.
Proof.
  induction ks as [|k0 ks IH]; intros Hlen j k Hj; [now destruct j|].
  cbn [flat_map]. pose proof (Hlen k0 (or_introl eq_refl)) as H0.
  destruct j as [|j]; cbn [nth_error] in Hj.
  - injection Hj as <-. cbn [Nat.mul skipn].
    rewrite firstn_app, H0, Nat.sub_diag. cbn [firstn].
    rewrite app_nil_r. apply firstn_all2. lia.
  - rewrite skipn_app, H0.
    rewrite (skipn_all2 (n := S j * size) (f k0)) by (rewrite H0; cbn; lia).
    cbn [app]. replace (S j * size - size) with (j * size) by (cbn; lia).
    apply IH; [|assumption]. intros k' Hk'. apply Hlen. now right.
Qed.

(** Entry [j] of [a[idx]] is entry [idx[j]] of [a]. *)
Lemma take_row a (idx : ndarray Z) r (n s : nat) (t : list nat) (j i : nat) :
  take a idx = Ok r -> wf a -> shape a = n :: t -> shape idx = [s] ->
  Forall (in_range n) (data idx) ->
  nth_error (data idx) j = Some (Z.of_nat i) ->
  row r j = row a i.
Proof.
  intros H Wa Sa Si F Hj.
  destruct (take_ok _ _ H) as (n' & t' & ks & Sa' & Eks & Sr & Dr).
  rewrite Sa in Sa'. injection Sa' as <- <-.
  rewrite (rmap_in_range F) in Eks. injection Eks as <-.
  unfold row at 1. unfold row_size. rewrite Sr, Si, Dr. cbn [app tl].
  apply chunk_of_flat_map.
  - intros k Hk. apply in_map_iff in Hk as (z & <- & Hz).
    rewrite Forall_forall in F. specialize (F z Hz). unfold in_range in F.
    apply (row_length Wa Sa). lia.
  - rewrite nth_error_map, Hj. cbn. now rewrite Nat2Z.id.
Qed.

Lemma row_vector a (n k : nat) :
  shape a = [n] ->
  row a k = match nth_error (data a) k with Some v => [v] | None => [] end.
Proof.
  intros Sa. unfold row, row_size. rewrite Sa. cbn [tl size_of fold_right].
  rewrite Nat.mul_1_r. generalize (data a). clear.
  induction k as [|k IH]; intros [|v l]; cbn; try reflexivity.
  apply IH.
Qed.

Lemma item_vector a (n k : nat) :
  shape a = [n] -> k < n -> item a [k] = nth_error (data a) k.
Proof.
  intros Sa Hk. unfold item. rewrite Sa. cbn [ravel].
  destruct (Nat.ltb_spec k n); [|lia]. cbn. f_equal. lia.
Qed.

(** For vectors, equal rows are equal entries. *)
Lemma item_of_row a r (n m j i : nat) :
  shape r = [m] -> wf r -> j < m ->
  shape a = [n] -> wf a -> i < n ->
  row r j = row a i -> item r [j] = item a [i].
Proof.
  intros Sr Wr Hj Sa Wa Hi H.
  rewrite (@row_vector r m j Sr), (@row_vector a n i Sa) in H.
  rewrite (@item_vector r m j Sr Hj), (@item_vector a n i Sa Hi).
  pose proof (wf_vector Sr Wr) as Lr. pose proof (wf_vector Sa Wa) as La.
  destruct (nth_error (data r) j) as [x|] eqn:Ex;
    [|apply nth_error_None in Ex; lia].
  destruct (nth_error (data a) i) as [y|] eqn:Ey;
    [|apply nth_error_None in Ey; lia].
  congruence.
Qed.

End RowFacts.

(** ** The evaluation sample and its ground truth *)

Section GroundTruth.
Context {L : Library}.

Lemma nth_in_range (n : nat) (l : list Z) (j : nat) :
  Forall (in_range n) l -> j < length l ->
  exists i, nth_error l j = Some (Z.of_nat i) /\ i < n.
Proof.
  intros F Hj. destruct (nth_error l j) as [z|] eqn:E;
    [|apply nth_error_None in E; lia].
  rewrite Forall_forall in F. specialize (F z (nth_error_In _ _ E)).
  unfold in_range in F. exists (Z.to_nat z). split; [|lia].
  now rewrite Z2Nat.id by lia.
Qed.

(** Merging the splits, drawing indices and indexing, on arrays alone. *)
Lemma labelled_rows
    (x1 x2 ytr yte : ndarray Z) (xtr xte x xe : ndarray float32)
    (y idx ye el : ndarray Z) (n m s : nat) :
  reshape_images x1 = Ok xtr -> reshape_images x2 = Ok xte ->
  concatenate [xtr; xte] = Ok x -> concatenate [ytr; yte] = Ok y ->
  take x idx = Ok xe -> take y idx = Ok ye ->
  take (array (repeat 1%Z n ++ repeat 0%Z m)) idx = Ok el ->
  shape x1 = [n; 28; 28] -> wf x1 -> shape ytr = [n] -> wf ytr ->
  shape x2 = [m; 28; 28] -> wf x2 -> shape yte = [m] -> wf yte ->
  shape idx = [s] -> wf idx -> Forall (in_range (n + m)) (data idx) ->
  forall j, j < s ->
    exists i,
      nth_error (data idx) j = Some (Z.of_nat i) /\ i < n + m /\
      (i < n ->
       row xe j = row xtr i /\ item ye [j] = item ytr [i] /\
       item el [j] = Some 1%Z) /\
      (n <= i ->
       row xe j = row xte (i - n) /\ item ye [j] = item yte [i - n] /\
       item el [j] = Some 0%Z).
Proof.
  intros Er1 Er2 Ecx Ecy Etx Ety Ett Sx1 Wx1 Sytr Wytr Sx2 Wx2 Syte Wyte
    Si Wi Fi j Hj.
  destruct (@reshape_images_facts _ _ _ _ Er1 Sx1 Wx1) as [Sxtr Wxtr].
  destruct (@reshape_images_facts _ _ _ _ Er2 Sx2 Wx2) as [Sxte Wxte].
  destruct (@concatenate_facts _ _ _ _ _ _ _ Ecx Sxtr Sxte Wxtr Wxte) as [Sx Wx].
  destruct (@concatenate_facts _ _ _ _ _ _ _ Ecy Sytr Syte Wytr Wyte) as [Sy Wy].
  destruct (@take_facts _ _ _ _ _ _ _ Ety Sy Wy Si Wi) as [Sye Wye].
  pose proof (@array_wf _ (repeat 1%Z n ++ repeat 0%Z m)) as Wts.
  assert (Sts : shape (array (repeat 1%Z n ++ repeat 0%Z m)) = [n + m])
    by (unfold array; cbn [shape]; now rewrite indicator_length).
  destruct (@take_facts _ _ _ _ _ _ _ Ett Sts Wts Si Wi) as [Sel Wel].
  destruct (nth_in_range (n := n + m) (l := data idx) (j := j) Fi)
    as (i & Hi & Hlt).
  { now rewrite (@wf_vector _ _ _ Si Wi). }
  exists i. split; [assumption|]. split; [assumption|].
  pose proof (@take_row _ _ _ _ _ _ _ j i Etx Wx Sx Si Fi Hi) as Rx.
  pose proof (@take_row _ _ _ _ _ _ _ j i Ety Wy Sy Si Fi Hi) as Ry.
  pose proof (@take_row _ _ _ _ _ _ _ j i Ett Wts Sts Si Fi Hi) as Rt.
  pose proof (@item_of_row _ _ _ _ _ _ _ Sel Wel Hj Sts Wts Hlt Rt) as It.
  rewrite item_array in It.
  split; intros Hcase.
  - rewrite (@row_concatenate_left _ _ _ _ _ _ _ Wxtr Sxtr Ecx Hcase) in Rx.
    rewrite (@row_concatenate_left _ _ _ _ _ _ _ Wytr Sytr Ecy Hcase) in Ry.
    repeat split; [exact Rx | | ].
    + exact (@item_of_row _ _ _ _ _ _ _ Sye Wye Hj Sytr Wytr Hcase Ry).
    + rewrite It. now apply indicator_one.
  - rewrite (@row_concatenate_right _ _ _ _ _ _ _ Wxtr Sxtr Ecx Hcase) in Rx.
    rewrite (@row_concatenate_right _ _ _ _ _ _ _ Wytr Sytr Ecy Hcase) in Ry.
    assert (Hm : i - n < m) by lia.
    repeat split; [exact Rx | | ].
    + exact (@item_of_row _ _ _ _ _ _ _ Sye Wye Hj Syte Wyte Hm Ry).
    + rewrite It. now apply indicator_zero.
Qed.

(** In a complete run, with [load_mnist] and [choice] behaving as
    documented, the evaluation sample is labelled with the truth.  For every
    position [j] of the 500, with [i] the index drawn for it: when
    [i < len(x_train)], sample [j] of [x_eval] is sample [i] of [x_train],
    its label in [y_eval] is label [i] of [y_train], and [eval_label[j]] is
    1; otherwise sample [j] is sample [i - len(x_train)] of [x_test] with
    that sample's label, and [eval_label[j]] is 0. *)
Theorem evaluation_sample_is_labelled (w : World) :
  loader_contract -> choice_contract ->
  fst (run w) = Ok tt ->
  exists xtr ytr xte yte idx xe ye el n m,
    names (snd (run w)) V.x_train = Some (VFloatArr xtr) /\
    names (snd (run w)) V.y_train = Some (VIntArr ytr) /\
    names (snd (run w)) V.x_test = Some (VFloatArr xte) /\
    names (snd (run w)) V.y_test = Some (VIntArr yte) /\
    names (snd (run w)) V.eval_data_idx = Some (VIntArr idx) /\
    names (snd (run w)) V.x_eval = Some (VFloatArr xe) /\
    names (snd (run w)) V.y_eval = Some (VIntArr ye) /\
    names (snd (run w)) V.eval_label = Some (VIntArr el) /\
    len xtr = Ok n /\ len xte = Ok m /\
    forall j, j < 500 ->
      exists i,
        nth_error (data idx) j = Some (Z.of_nat i) /\ i < n + m /\
        (i < n ->
         row xe j = row xtr i /\ item ye [j] = item ytr [i] /\
         item el [j] = Some 1%Z) /\
        (n <= i ->
         row xe j = row xte (i - n) /\ item ye [j] = item yte [i - n] /\
         item el [j] = Some 0%Z).
Proof.
  intros Hload Hchoice.
  destruct (run w) as [r st] eqn:H. cbn [fst snd]. intros Hr.
  run_cases H; try discriminate Hr.
  lazymatch goal with
  | El : load_mnist true _ = (Returned (?x1, _, (?x2, _), _, _), _),
    Er1 : reshape_images ?x1 = Ok ?xtr,
    Er2 : reshape_images ?x2 = Ok ?xte,
    Ecx : concatenate [?xtr; ?xte] = Ok ?x,
    El1 : len ?xtr = Ok ?k1, El2 : len ?xte = Ok ?k2, El3 : len ?x = Ok ?k3,
    Ech : choice ?k3 500 _ = (Returned _, _) |- _ =>
      destruct (Hload _ _ _ _ _ _ _ _ El)
        as (ntr & nte & Sx1 & Wx1 & Sytr & Wytr & Sx2 & Wx2 & Syte & Wyte);
      destruct (@reshape_images_facts _ _ _ _ Er1 Sx1 Wx1) as [Sxtr Wxtr];
      destruct (@reshape_images_facts _ _ _ _ Er2 Sx2 Wx2) as [Sxte Wxte];
      destruct (@concatenate_facts _ _ _ _ _ _ _ Ecx Sxtr Sxte Wxtr Wxte) as [Sx Wx];
      pose proof El1 as Hn; pose proof El2 as Hm;
      rewrite (@shape_len _ _ _ _ Sxtr) in El1; injection El1 as El1;
      rewrite (@shape_len _ _ _ _ Sxte) in El2; injection El2 as El2;
      rewrite (@shape_len _ _ _ _ Sx) in El3; injection El3 as El3;
      subst k1 k2 k3;
      destruct (Hchoice _ _ _ _ _ Ech) as (Si & Wi & Fi)
  end.
  cbv [names bind_var V.eqb].
  do 10 eexists.
  repeat match goal with |- _ /\ _ => split end.
  1-8: reflexivity.
  1-2: eassumption.
  eapply labelled_rows; eassumption.
Qed.

End GroundTruth.

(** ** What the libraries are handed *)

Section SliceFacts.
Context {A : Type}.

Lemma slice_to_facts (a r : ndarray A) (k n : nat) (t : list nat) :
  slice_to a k = Ok r -> shape a = n :: t -> wf a ->
  shape r = Nat.min k n :: t /\ wf r.
Proof.
  intros H Sa Wa. split; [|eapply slice_to_wf; eassumption].
  destruct (slice_to_ok _ _ H) as (n' & t' & Sa' & Sr & _).
  rewrite Sa in Sa'. injection Sa' as <- <-. exact Sr.
Qed.

End SliceFacts.

Ltac learn_inputs Hload Hchoice :=
  repeat match goal with
         | E : load_mnist true _ = (Returned _, _) |- _ =>
             destruct (Hload _ _ _ _ _ _ _ _ E)
               as (?n & ?m & ? & ? & ? & ? & ? & ? & ? & ?);
             clear E
         | E : reshape_images ?a = Ok _, S : shape ?a = [_; 28; 28],
           W : wf ?a |- _ =>
             destruct (@reshape_images_facts _ _ _ _ E S W); clear E
         | E : concatenate [?a; ?b] = Ok _, Sa : shape ?a = _ :: ?t,
           Sb : shape ?b = _ :: ?t, Wa : wf ?a, Wb : wf ?b |- _ =>
             destruct (@concatenate_facts _ _ _ _ _ _ _ E Sa Sb Wa Wb);
             clear E
         | E : len ?a = Ok ?k, S : shape ?a = _ :: _ |- _ =>
             rewrite (@shape_len _ _ _ _ S) in E; injection E as E; subst k
         | E : slice_to ?a _ = Ok _, S : shape ?a = _ :: _, W : wf ?a |- _ =>
             destruct (@slice_to_facts _ _ _ _ _ _ E S W); clear E
         | E : choice _ 500 _ = (Returned _, _) |- _ =>
             destruct (Hchoice _ _ _ _ _ E) as (? & ? & ?); clear E
         | E : take ?a ?idx = Ok _, Sa : shape ?a = _ :: _, Wa : wf ?a,
           Si : shape ?idx = [_], Wi : wf ?idx |- _ =>
             destruct (@take_facts _ _ _ _ _ _ _ E Sa Wa Si Wi); clear E
         end.

(** Closes a goal about the arguments of one kind of call: the call is not
    in the log, or it is the one call whose arguments are known. *)
Ltac logged_call Hin known :=
  cbv [out trace] in Hin; cbn [In] in Hin;
  repeat match goal with
         | Hd : _ \/ _ |- _ => destruct Hd as [Hd|Hd]
         end;
  first
    [ contradiction
    | discriminate
    | injection Hin as <- <- <- <- <- <-; known
    | injection Hin as <- <- <- <-; known
    | injection Hin as <- <-; known ].

Section Inputs.
Context {L : Library}.

(** Whatever the libraries do, with [load_mnist] and [choice] behaving as
    documented, every array the notebook hands to the classifier or to an
    attack is well formed and has samples of the declared [input_shape]:
    [predict] gets such an array; the supervised calibration gets at most
    1500 member samples and at most 1500 non-member samples, each with
    exactly as many labels as samples; [infer] gets 500 samples with 500
    labels. *)
Theorem library_inputs_are_well_shaped (w : World) :
  loader_contract -> choice_contract ->
  (forall c xs,
     In (EPredict c xs) (trace (out (snd (run w)))) ->
     wf xs /\ tl (shape xs) = input_shape) /\
  (forall rv a xm ym xn yn,
     In (ECalibrate rv a xm ym xn yn) (trace (out (snd (run w)))) ->
     (wf xm /\ wf ym /\ wf xn /\ wf yn) /\
     (tl (shape xm) = input_shape /\ tl (shape xn) = input_shape) /\
     (exists k, k <= 1500 /\ len xm = Ok k /\ shape ym = [k]) /\
     (exists k, k <= 1500 /\ len xn = Ok k /\ shape yn = [k])) /\
  (forall rv a xs ys,
     In (EInfer rv a xs ys) (trace (out (snd (run w)))) ->
     (wf xs /\ wf ys) /\ shape xs = 500 :: input_shape /\ shape ys = [500]).
Proof.
  intros Hload Hchoice.
  destruct (run w) as [r st] eqn:H. cbn [fst snd].
  run_cases_with ltac:(learn_inputs Hload Hchoice) H.
  all: split; [|split].
  all: lazymatch goal with
       | |- forall _ _, In (EPredict _ _) _ -> _ =>
           intros ? ? Hin;
           logged_call Hin
             ltac:(split; [assumption|];
                   match goal with
                   | S : shape ?a = _ |- tl (shape ?a) = _ =>
                       rewrite S; reflexivity
                   end)
       | |- forall _ _ _ _ _ _, In (ECalibrate _ _ _ _ _ _) _ -> _ =>
           intros ? ? ? ? ? ? Hin;
           logged_call Hin
             ltac:(split; [repeat split; assumption|];
                   split;
                   [ split;
                     match goal with
                     | S : shape ?a = _ |- tl (shape ?a) = _ =>
                         rewrite S; reflexivity
                     end
                   | split;
                     match goal with
                     | S : shape ?a = Nat.min 1500 ?k :: _
                       |- exists _, _ /\ len ?a = _ /\ _ =>
                         exists (Nat.min 1500 k);
                         split; [apply Nat.le_min_l|];
                         split; [exact (@shape_len _ _ _ _ S) | assumption]
                     end ])
       | |- forall _ _ _ _, In (EInfer _ _ _ _) _ -> _ =>
           intros ? ? ? ? Hin;
           logged_call Hin ltac:(repeat split; assumption)
       end.
Qed.

End Inputs.

(** ** The wrapped model and its base accuracy *)

Section Wrapping.
Context {L : Library}.
Local Open Scope string_scope.

Lemma iter_ok {X} (p : ndarray X) (rows : list (ndarray X)) :
  iter p = Ok rows ->
  exists n t, shape p = n :: t /\ length rows = n /\
              forall i, i < n -> nth_error rows i = Some (NdArray t (row p i)).
Proof.
  unfold iter. destruct (shape p) as [|n t]; [discriminate|].
  intros [= <-]. exists n, t. split; [reflexivity|].
  rewrite length_map, length_seq. split; [reflexivity|].
  intros i Hi. rewrite nth_error_map.
  rewrite nth_error_nth' with (d := 0) by now rewrite length_seq.
  now rewrite seq_nth.
Qed.

Lemma rmap_Forall2 {X Y} (f : X -> result Y) (l : list X) (ks : list Y) :
  rmap f l = Ok ks -> Forall2 (fun a k => f a = Ok k) l ks.
Proof.
  revert ks. induction l as [|a l IH]; cbn [rmap]; intros ks H.
  - injection H as <-. constructor.
  - apply rbind_ok in H as (k & Ek & H).
    apply rbind_ok in H as (ks' & Eks & H). injection H as <-.
    constructor; [assumption | now apply IH].
Qed.

Lemma from_lib_ok {X} (r : outcome X) (x : X) :
  from_lib r = Ok x -> r = Returned x.
Proof. destruct r; cbn; [now intros [= ->] | discriminate]. Qed.

(** The world [load_mnist] is called in: the one the five imports before it
    leave. *)
Lemma world_before_loading (w w1 w2 w3 w4 w5 : World) (u1 u2 u3 u4 u5 : unit) :
  import_module "torch" [] w = (Returned u1, w1) ->
  import_module "torch" ["nn"] w1 = (Returned u2, w2) ->
  import_module "numpy" [] w2 = (Returned u3, w3) ->
  import_module "models.mnist" ["Net"] w3 = (Returned u4, w4) ->
  import_module "art.utils" ["load_mnist"] w4 = (Returned u5, w5) ->
  fst (after before_loading w) = Ok tt /\
  world (out (snd (after before_loading w))) = w5.
Proof.
  intros E1 E2 E3 E4 E5.
  destruct (after before_loading w) as [r st] eqn:H.
  cbv beta iota delta
      [after before_loading statements notebook concat app firstn length
       Nat.add cell_2 cell_62 import_ fresh] in H.
  exec_with ltac:(fun H' => progress known_calls_in H') ltac:(idtac) H.
  injection H as <- <-. split; reflexivity.
Qed.

(** What a complete run did with the model, in one pass over the run. *)
Lemma wrapping_of_run (w : World) :
  fst (run w) = Ok tt ->
  exists sd mdl crit ps opt lo hi clf xte yte p rows ks c t,
    (names (snd (run w)) V.state_dict = Some (VStateDict sd) /\
     names (snd (run w)) V.model = Some (VModel mdl) /\
     names (snd (run w)) V.criterion = Some (VLoss crit) /\
     names (snd (run w)) V.optimizer = Some (VOptimizer opt) /\
     names (snd (run w)) V._min = Some (VFloat lo) /\
     names (snd (run w)) V._max = Some (VFloat hi) /\
     names (snd (run w)) V.art_model = Some (VClassifier clf) /\
     names (snd (run w)) V.x_test = Some (VFloatArr xte) /\
     names (snd (run w)) V.y_test = Some (VIntArr yte) /\
     names (snd (run w)) V.pred = Some (VIntArr (array ks))) /\
    filter is_model_event (trace (out (snd (run w))))
    = [ ETorchLoad "models/mnist_cnn.pt"; ENet; ELoadStateDict mdl sd;
        ECrossEntropyLoss; EParameters mdl; EAdam ps;
        EPyTorchClassifier mdl crit opt true input_shape 10 (lo, hi);
        EPredict clf xte;
        ELabelOnlyDecisionBoundary clf; ELabelOnlyDecisionBoundary clf ] /\
    ((exists tr te u',
        load_mnist true (world (out (snd (after before_loading w))))
        = (Returned (tr, te, lo, hi), u')) /\
     (exists u u', torch_load "models/mnist_cnn.pt" u = (Returned sd, u')) /\
     (exists u u', Net u = (Returned mdl, u')) /\
     (exists u u', parameters mdl u = (Returned ps, u')) /\
     (exists u u', Adam ps u = (Returned opt, u')) /\
     (exists u u',
        PyTorchClassifier mdl crit opt true input_shape 10 (lo, hi) u
        = (Returned clf, u'))) /\
    ((exists u u', predict clf xte u = (Returned p, u')) /\
     iter p = Ok rows /\
     rmap (fun r => from_lib (np_argmax r)) rows = Ok ks /\
     np_sum_equal (array ks) yte = Returned c /\
     len yte = Ok t /\
     hd_error (stdout (out (snd (run w)))) = Some (PBaseAccuracy c t)).
Proof.
  destruct (run w) as [r st] eqn:H. cbn [fst snd]. intros Hr.
  run_cases H; try discriminate Hr.
  match goal with
  | E1 : import_module "torch" [] w = _,
    E2 : import_module "torch" ["nn"] _ = _,
    E3 : import_module "numpy" [] _ = _,
    E4 : import_module "models.mnist" ["Net"] _ = _,
    E5 : import_module "art.utils" ["load_mnist"] _ = _ |- _ =>
      destruct (world_before_loading _ E1 E2 E3 E4 E5) as [_ ->]
  end.
  cbv [names out trace stdout bind_var V.eqb].
  do 15 eexists.
  split; [repeat split|].
  split; [cbv [filter is_model_event]; reflexivity|].
  split; [repeat split; eauto|].
  split; [eauto|].
  split; [eassumption|].
  split; [eassumption|].
  split; [apply from_lib_ok; eassumption|].
  split; [eassumption|].
  reflexivity.
Qed.

(** In a complete run the classifier wrapper is built around the model
    into which the weights read from [models/mnist_cnn.pt] were loaded, with
    the optimizer made from that model's parameters and the clip range
    [load_mnist] returned: the pair made of the third and the fourth
    component of what [load_mnist(raw=True)] gave when the run called it, in
    this order, which are also what [_min] and [_max] hold.  That one
    wrapper, the one bound to [art_model], is what [predict] is called on
    and what both attack objects are built from. *)
Theorem attacks_share_the_wrapped_model (w : World) :
  fst (run w) = Ok tt ->
  exists sd mdl crit ps opt lo hi clf xte,
    names (snd (run w)) V.art_model = Some (VClassifier clf) /\
    names (snd (run w)) V._min = Some (VFloat lo) /\
    names (snd (run w)) V._max = Some (VFloat hi) /\
    names (snd (run w)) V.x_test = Some (VFloatArr xte) /\
    filter is_model_event (trace (out (snd (run w))))
    = [ ETorchLoad "models/mnist_cnn.pt"; ENet; ELoadStateDict mdl sd;
        ECrossEntropyLoss; EParameters mdl; EAdam ps;
        EPyTorchClassifier mdl crit opt true input_shape 10 (lo, hi);
        EPredict clf xte;
        ELabelOnlyDecisionBoundary clf; ELabelOnlyDecisionBoundary clf ] /\
    (exists tr te u',
       load_mnist true (world (out (snd (after before_loading w))))
       = (Returned (tr, te, lo, hi), u')) /\
    (exists u u', torch_load "models/mnist_cnn.pt" u = (Returned sd, u')) /\
    (exists u u', Net u = (Returned mdl, u')) /\
    (exists u u', parameters mdl u = (Returned ps, u')) /\
    (exists u u', Adam ps u = (Returned opt, u')) /\
    (exists u u',
       PyTorchClassifier mdl crit opt true input_shape 10 (lo, hi) u
       = (Returned clf, u')).
Proof.
  intros Hr.
  destruct (wrapping_of_run w Hr)
    as (sd & mdl & crit & ps & opt & lo & hi & clf & xte & yte & p & rows
        & ks & c & t & Hn & Hf & Hc & _).
  destruct Hn as (_ & _ & _ & _ & Hlo & Hhi & Hclf & Hxte & _).
  destruct Hc as (H0 & H1 & H2 & H3 & H4 & H5).
  exists sd, mdl, crit, ps, opt, lo, hi, clf, xte.
  repeat match goal with |- _ /\ _ => split end; assumption.
Qed.

(** In a complete run the first line printed is the base model accuracy,
    and it is computed on the test split: [pred] holds one class per row of
    what [predict] returned for [x_test], the class [np.argmax] gives for
    that row; the numerator printed is [np.sum(pred == y_test)] and the
    denominator is [len(y_test)]. *)
Theorem base_accuracy_is_on_the_test_split (w : World) :
  fst (run w) = Ok tt ->
  exists clf xte yte p rows ks c t n sh,
    names (snd (run w)) V.art_model = Some (VClassifier clf) /\
    names (snd (run w)) V.x_test = Some (VFloatArr xte) /\
    names (snd (run w)) V.y_test = Some (VIntArr yte) /\
    names (snd (run w)) V.pred = Some (VIntArr (array ks)) /\
    (exists u u', predict clf xte u = (Returned p, u')) /\
    shape p = n :: sh /\ length rows = n /\ length ks = n /\
    (forall i, i < n -> nth_error rows i = Some (NdArray sh (row p i))) /\
    Forall2 (fun r k => np_argmax r = Returned k) rows ks /\
    np_sum_equal (array ks) yte = Returned c /\
    len yte = Ok t /\
    hd_error (stdout (out (snd (run w)))) = Some (PBaseAccuracy c t).
Proof.
  intros Hr.
  destruct (wrapping_of_run w Hr)
    as (sd & mdl & crit & ps & opt & lo & hi & clf & xte & yte & p & rows
        & ks & c & t & Hn & _ & _ & Hp).
  destruct Hn as (_ & _ & _ & _ & _ & _ & Hclf & Hxte & Hyte & Hpred).
  destruct Hp as (Hpr & Hit & Hks & Hc & Ht & Hout).
  destruct (@iter_ok _ _ _ Hit) as (n & sh & Sp & Hlen & Hrows).
  pose proof (@rmap_Forall2 _ _ _ _ _ Hks) as HF.
  exists clf, xte, yte, p, rows, ks, c, t, n, sh.
  repeat match goal with |- _ /\ _ => split end; try assumption.
  - rewrite <- Hlen. symmetry. eapply Forall2_length. exact HF.
  - eapply Forall2_impl; [|exact HF]. intros r k. apply from_lib_ok.
Qed.

End Wrapping.

(** ** Further concrete runs *)

Section FurtherRuns.

Lemma unbound_name_stops_cell_witness :
  names (@fresh Toy.library Toy.calm) V.mia_label_only = None /\
  @exec_all Toy.library cell_77 (@fresh Toy.library Toy.calm)
  = (Raise NameError, @fresh Toy.library Toy.calm).
Proof.
  split; [reflexivity|].
  destruct (@unbound_name_stops_cell Toy.library
              (@fresh Toy.library Toy.calm))
    as (H & _).
  destruct (H eq_refl) as [_ H77]. exact H77.
Defined.

Lemma calibration_data_cell_idempotent_witness :
  fst (@exec_all Toy.library cell_74 Toy.before_74) = Ok tt /\
  fst (@exec_all Toy.library cell_74
         (snd (@exec_all Toy.library cell_74 Toy.before_74))) = Ok tt.
Proof.
  assert (H : fst (@exec_all Toy.library cell_74 Toy.before_74) = Ok tt)
    by (vm_compute; reflexivity).
  split; [exact H|].
  destruct (@calibration_data_cell_idempotent Toy.library Toy.before_74 H)
    as (_ & H2 & _).
  exact H2.
Defined.

Lemma evaluation_sample_is_labelled_witness :
  @loader_contract Toy.library /\ @choice_contract Toy.library /\
  fst (@run Toy.library Toy.calm) = Ok tt /\
  exists idx i,
    names (snd (@run Toy.library Toy.calm)) V.eval_data_idx
    = Some (VIntArr idx) /\
    nth_error (data idx) 0 = Some (Z.of_nat i).
Proof.
  split; [exact ToyFacts.loader_ok|].
  split; [exact ToyFacts.choice_ok|].
  split; [exact ToyFacts.calm_completes|].
  destruct (@evaluation_sample_is_labelled Toy.library Toy.calm
              ToyFacts.loader_ok ToyFacts.choice_ok ToyFacts.calm_completes)
    as (xtr & ytr & xte & yte & idx & xe & ye & el & n & m & H).
  destruct H as (_ & _ & _ & _ & Hidx & _ & _ & _ & _ & _ & Hj).
  destruct (Hj 0) as (i & Hi & _); [lia|].
  exists idx, i. split; assumption.
Defined.

Lemma library_inputs_are_well_shaped_witness :
  @loader_contract Toy.library /\ @choice_contract Toy.library /\
  forall rv a xs ys,
    In (EInfer rv a xs ys) (trace (out (snd (@run Toy.library Toy.calm)))) ->
    shape xs = 500 :: input_shape.
Proof.
  split; [exact ToyFacts.loader_ok|].
  split; [exact ToyFacts.choice_ok|].
  destruct (@library_inputs_are_well_shaped Toy.library Toy.calm
              ToyFacts.loader_ok ToyFacts.choice_ok)
    as (_ & _ & H).
  intros rv a xs ys Hin. destruct (H rv a xs ys Hin) as (_ & Hs & _).
  exact Hs.
Defined.

Lemma attacks_share_the_wrapped_model_witness :
  fst (@run Toy.library Toy.calm) = Ok tt /\
  exists clf lo hi tr te u',
    names (snd (@run Toy.library Toy.calm)) V.art_model
    = Some (VClassifier clf) /\
    names (snd (@run Toy.library Toy.calm)) V._min = Some (VFloat lo) /\
    names (snd (@run Toy.library Toy.calm)) V._max = Some (VFloat hi) /\
    @load_mnist Toy.library true
      (world (out (snd (@after Toy.library (@before_loading Toy.library)
                             Toy.calm))))
    = (Returned (tr, te, lo, hi), u').
Proof.
  split; [exact ToyFacts.calm_completes|].
  destruct (@attacks_share_the_wrapped_model Toy.library Toy.calm
              ToyFacts.calm_completes)
    as (sd & mdl & crit & ps & opt & lo & hi & clf & xte
        & H & Hlo & Hhi & _ & _ & (tr & te & u' & Hl) & _).
  exists clf, lo, hi, tr, te, u'.
  split; [exact H|]. split; [exact Hlo|]. split; [exact Hhi | exact Hl].
Defined.

Lemma base_accuracy_is_on_the_test_split_witness :
  fst (@run Toy.library Toy.calm) = Ok tt /\
  exists c t,
    hd_error (stdout (out (snd (@run Toy.library Toy.calm))))
    = Some (PBaseAccuracy c t).
Proof.
  split; [exact ToyFacts.calm_completes|].
  destruct (@base_accuracy_is_on_the_test_split Toy.library Toy.calm
              ToyFacts.calm_completes)
    as (clf & xte & yte & p & rows & ks & c & t & n & sh & H).
  destruct H as (_ & _ & _ & _ & _ & _ & _ & _ & _ & _ & _ & _ & Hout).
  exists c, t. exact Hout.
Defined.

End FurtherRuns.
